(** * Grant redemption (package [grant]): a shallow embedding of
    [grant/grant.go] and the properties of its verification and
    redemption engine.

    Layout: the data model and the operations of the source come first
    (arbitrary-precision decimals, grants, the sort behind
    [sort.Sort(sort.Reverse(ByProbi(grants)))], the claim store, the wallet
    provider interface, [InitGrantService], [Verify], [Redeem]), then a
    concrete world for the scenarios and the vocabulary of the statements;
    the properties follow. *)

From Stdlib Require Import ZArith QArith Qpower Qcanon Lia Lqa.
From Stdlib Require Import Ascii Permutation Sorted.
From stdpp Require Import gmap strings list sorting.

(** ** Arbitrary-precision decimals

    [Probi] amounts are [decimal.Decimal] values: an unbounded integer
    coefficient together with a power-of-ten exponent.  The operations below
    follow the decimal package as the source uses it ([New], [Add], [Sub],
    [Mul], [Cmp], [LessThan], [GreaterThanOrEqual]); the exponent is an
    unbounded integer here (the package stores an int32 and panics when a
    product leaves that range). *)

Module decimal.

Record Decimal : Type := mkDecimal { value : Z; exp : Z }.

(** [decimal.New(value, exp)] is [value * 10 ^ exp]. *)
Definition New (v e : Z) : Decimal := mkDecimal v e.

(** [rescale] moves a decimal to another exponent: exact when the exponent
    goes down, truncating when it goes up. *)
Definition rescale (d : Decimal) (e : Z) : Decimal :=
  let diff := Z.abs (e - exp d) in
  let expScale := (10 ^ diff)%Z in
  if (exp d <? e)%Z then mkDecimal (Z.quot (value d) expScale) e
  else if (e <? exp d)%Z then mkDecimal (value d * expScale) e
  else mkDecimal (value d) e.

Definition Add (d d2 : Decimal) : Decimal :=
  let baseScale := Z.min (exp d) (exp d2) in
  mkDecimal (value (rescale d baseScale) + value (rescale d2 baseScale))
            baseScale.

Definition Sub (d d2 : Decimal) : Decimal :=
  let baseScale := Z.min (exp d) (exp d2) in
  mkDecimal (value (rescale d baseScale) - value (rescale d2 baseScale))
            baseScale.

Definition Mul (d d2 : Decimal) : Decimal :=
  mkDecimal (value d * value d2) (exp d + exp d2).

Definition Cmp (d d2 : Decimal) : comparison :=
  if (exp d =? exp d2)%Z then (value d ?= value d2)%Z
  else
    let baseExp := Z.min (exp d) (exp d2) in
    (value (rescale d baseExp) ?= value (rescale d2 baseExp))%Z.

Definition LessThan (d d2 : Decimal) : bool :=
  match Cmp d d2 with Lt => true | _ => false end.

Definition GreaterThanOrEqual (d d2 : Decimal) : bool :=
  match Cmp d d2 with Lt => false | _ => true end.

(** The rational number a decimal stands for. *)
Definition toQ (d : Decimal) : Q := (inject_Z (value d) * (10 # 1) ^ exp d)%Q.

End decimal.

Import decimal.

(** ** Errors and results

    A Go call returning [(value, error)] yields [Ok value] or [Err e].
    Errors that come back from a collaborator (wallet provider, claim store,
    token library) are values of [ExtError]; [Verify] and [Redeem] hand them
    on unchanged, wrapped in [External].  The errors the package creates
    itself with [errors.New] are the remaining constructors, named after the
    failure they report. *)

Inductive ErrKind : Type :=
| InvalidSignatureKind       (* wallet.IsInvalidSignature(err) *)
| InsufficientBalanceKind    (* wallet.IsInsufficientBalance(err) *)
| OtherKind.

Record ExtError : Type := mkExtError { errKind : ErrKind; errText : string }.

Definition IsInvalidSignature (e : ExtError) : bool :=
  match errKind e with InvalidSignatureKind => true | _ => false end.

Definition IsInsufficientBalance (e : ExtError) : bool :=
  match errKind e with InsufficientBalanceKind => true | _ => false end.

Definition UUID : Type := string.

(** [u.String()]: a UUID is kept as its canonical text. *)
Definition UUID_String (u : UUID) : string := u.

Inductive Error : Type :=
| External (e : ExtError)
| RefreshBalanceDisabled
| UnsupportedAlgorithm
| AssetMismatch
| BelowMinimum
| NoShortfall
| WrongDestination
| UnexpectedSuccess
| WrongPublicKey
| ExcessGrants
| UnsupportedAsset
| AlreadyRedeemed (grantId : UUID)
| AlreadyRedeemedByWallet (providerId : string).

(** The text each error carries in the source. *)
Definition Error_text (e : Error) : string :=
  match e with
  | External x => errText x
  | RefreshBalanceDisabled => "refreshBalance must be true in production!!"
  | UnsupportedAlgorithm => "Error unsupported JWS algorithm"
  | AssetMismatch =>
      "Only grants submitted with BAT transactions are supported"
  | BelowMinimum => "Included transactions must be for a minimum of 20 BAT"
  | NoShortfall => "Wallet has enough funds to cover transaction"
  | WrongDestination =>
      "Included transactions must have settlement as their destination"
  | UnexpectedSuccess => "An included transaction unexpectedly succeeded"
  | WrongPublicKey =>
      "The included transaction was signed with the wrong publicKey!"
  | ExcessGrants =>
      "More grants included than are needed to fufill included transaction"
  | UnsupportedAsset => "All grants must be in BAT"
  | AlreadyRedeemed g =>
      "Grant " +:+ UUID_String g +:+ " has already been redeemed"
  | AlreadyRedeemedByWallet w =>
      "Wallet " +:+ w +:+ " has already redeemed a grant from this promotion"
  end.

Inductive result (Er A : Type) : Type :=
| Ok (a : A)
| Err (e : Er).

Arguments Ok {Er A} a.
Arguments Err {Er A} e.

Definition isOk {Er A} (r : result Er A) : bool :=
  match r with Ok _ => true | Err _ => false end.

(** Hand an external failure on as it is. *)
Definition surface {A} (r : result ExtError A) : result Error A :=
  match r with Ok a => Ok a | Err e => Err (External e) end.

(** ** Data model *)

(** Modelled from the spec: the [altcurrency] package is not part of the
    sources at hand; the asset type is an enumeration in which [BAT] is the
    supported asset. *)
Inductive AltCurrency : Type :=
| BAT
| OtherAsset (code : string).

Global Instance AltCurrency_eq_dec : EqDecision AltCurrency.
Proof. solve_decision. Defined.

Record Grant : Type := mkGrant {
  AltCurrency_ : AltCurrency;
  GrantId : UUID;
  Probi : Decimal;
  PromotionId : UUID
}.

Record WalletInfo : Type := mkWalletInfo {
  Provider : string;
  ProviderId : string;
  WalletAltCurrency : AltCurrency
}.

Record TransactionInfo : Type := mkTransactionInfo {
  TxAltCurrency : AltCurrency;
  TxProbi : Decimal;
  Destination : string
}.

Record Balance : Type := mkBalance { SpendableProbi : Decimal }.

(** A wallet of the provider: its description and its key material (bytes
    as integers in [0, 255]). *)
Record Wallet : Type := mkWallet {
  Info : WalletInfo;
  PubKey : list Z;
  PrivKey : list Z
}.

Record RedeemGrantsRequest : Type := mkRequest {
  Grants : list string;
  ReqWalletInfo : WalletInfo;
  Transaction : string
}.

(** A parsed signed token: the algorithm each signature declares, and the
    signed content. *)
Record JSONWebSignature : Type := mkJWS {
  Signatures : list string;
  Signed : string
}.

(** The package-level variables of the source.  [grantWallet] is an
    interface value: [None] is its zero value [nil]. *)
Record Globals : Type := mkGlobals {
  SettlementDestination : string;
  GrantSignatorPublicKeyHex : string;
  GrantWalletPublicKeyHex : string;
  GrantWalletPrivateKeyHex : string;
  GrantWalletCardId : string;
  grantPublicKey : list Z;
  grantWallet : option Wallet;
  refreshBalance : bool
}.

(** ** [encoding/hex]: [hex.DecodeString] with its error dropped, as the
    source drops it: the bytes decoded before the first bad character or
    the odd tail. *)

Definition fromHexChar (c : ascii) : option Z :=
  let n := Z.of_N (N_of_ascii c) in
  if (48 <=? n)%Z && (n <=? 57)%Z then Some (n - 48)%Z
  else if (97 <=? n)%Z && (n <=? 102)%Z then Some (n - 97 + 10)%Z
  else if (65 <=? n)%Z && (n <=? 70)%Z then Some (n - 65 + 10)%Z
  else None.

Fixpoint hex_DecodeString (s : string) : list Z :=
  match s with
  | String p (String q rest) =>
      match fromHexChar p, fromHexChar q with
      | Some a, Some b => Z.lor (Z.shiftl a 4) b :: hex_DecodeString rest
      | _, _ => []
      end
  | _ => []
  end.

(** ** Package [sort]

    [sort.Sort] reorders a slice in place using only [Len], [Less] and
    [Swap]; it promises an ascending result for [Less] and no stability.
    Which algorithm runs depends on the length of the slice and on the
    release, so the development is parametric in a [SortImpl]: any function
    that returns a rearrangement of its input in which no element is [Less]
    than one before it.  [less x y] stands for [Less(i, j)] with [x] at
    index [i] and [y] at index [j]. *)

Record StrictWeakOrder {A : Type} (less : A -> A -> bool) : Prop := {
  less_irrefl : forall x, less x x = false;
  less_trans : forall x y z,
    less x y = true -> less y z = true -> less x z = true;
  less_neg_trans : forall x y z,
    less x y = false -> less y z = false -> less x z = false
}.

Class SortImpl : Type := {
  sort_Sort : forall {A : Type}, (A -> A -> bool) -> list A -> list A;
  sort_Sort_perm : forall (A : Type) (less : A -> A -> bool) (l : list A),
    Permutation (sort_Sort less l) l;
  sort_Sort_sorted : forall (A : Type) (less : A -> A -> bool) (l : list A),
    StrictWeakOrder less ->
    StronglySorted (fun x y => less y x = false) (sort_Sort less l)
}.

(** [sort.Reverse]: [Less(i, j)] of the wrapper is [Less(j, i)] of the
    wrapped value. *)
Definition sort_Reverse {A : Type} (less : A -> A -> bool) : A -> A -> bool :=
  fun x y => less y x.

(** [insertionSort] of package [sort], the algorithm [sort.Sort] runs on a
    short slice: each element in turn moves left while it is [Less] than
    its left neighbour.  [sortedRev] is the part already in order, last
    element first. *)
Fixpoint insertLeft {A : Type} (less : A -> A -> bool) (x : A)
    (sortedRev : list A) : list A :=
  match sortedRev with
  | [] => [x]
  | y :: ys => if less x y then y :: insertLeft less x ys else x :: sortedRev
  end.

Definition insertionSort {A : Type} (less : A -> A -> bool) (data : list A)
    : list A :=
  rev (fold_left (fun acc x => insertLeft less x acc) data []).

(** [ByProbi.Less]. *)
Definition ByProbi_Less (x y : Grant) : bool := LessThan (Probi x) (Probi y).

(** [ByProbi.Len], and [ByProbi.Swap] and [ByProbi.Less] on indices of the
    slice: an index out of range panics, which is [None] here.  [Swap]
    is the parallel assignment [a[i], a[j] = a[j], a[i]]. *)
Definition ByProbi_Len (a : list Grant) : nat := length a.

Definition ByProbi_Swap (a : list Grant) (i j : nat) : option (list Grant) :=
  match a !! i, a !! j with
  | Some x, Some y => Some (<[j := x]> (<[i := y]> a))
  | _, _ => None
  end.

Definition ByProbi_LessAt (a : list Grant) (i j : nat) : option bool :=
  match a !! i, a !! j with
  | Some x, Some y => Some (ByProbi_Less x y)
  | _, _ => None
  end.

(** ** Collaborators

    The token library, the wallet provider and the asset table are outside
    the package.  [Externals E] is their interface; [E] is the state of the
    outside world that the provider calls read and change, so that a call
    may answer differently each time it is made. *)

Class Externals (E : Type) : Type := {
  (* go-jose and encoding/json *)
  jose_ParseSigned : string -> result ExtError JSONWebSignature;
  jws_Verify : JSONWebSignature -> list Z -> result ExtError string;
  json_Unmarshal : string -> result ExtError Grant;
  (* altcurrency: the number of decimal places of BAT *)
  batDecimals : Z;
  (* wallet/provider and the wallet.Wallet interface *)
  provider_GetWallet : WalletInfo -> E -> result ExtError Wallet * E;
  GetBalance : Wallet -> bool -> E -> result ExtError Balance * E;
  VerifyTransaction :
    Wallet -> string -> E -> result ExtError TransactionInfo * E;
  SubmitTransaction :
    Wallet -> string -> E -> result ExtError TransactionInfo * E;
  Transfer :
    Wallet -> AltCurrency -> Decimal -> string -> E ->
    result ExtError TransactionInfo * E;
  (* wallet/provider/uphold *)
  uphold_FromWalletInfo : WalletInfo -> result ExtError Wallet
}.

(** Modelled from the spec: [altcurrency.BAT.ToProbi] is not part of the
    sources at hand; it converts an amount in asset units to the asset's
    smallest unit, a multiplication by [10 ^ batDecimals]. *)
Definition BAT_ToProbi `{Externals E} (v : Decimal) : Decimal :=
  Mul v (New 1 batDecimals).

(** ** The world a request runs in

    The claim store maps the name of a set to its elements.  [faults] is
    the fate of the coming claim-store calls, one entry per call: [Some e]
    makes the call fail with [e] and leave the store as it is; once the
    list is used up every call goes through. *)

Record World (E : Type) : Type := mkWorld {
  ext : E;
  claims : gmap string (gset string);
  faults : list (option ExtError)
}.

Arguments mkWorld {E} ext claims faults.
Arguments ext {E} w.
Arguments claims {E} w.
Arguments faults {E} w.

(** State and errors threaded through a call: a failure keeps the world as
    it was made so far. *)
Definition M (E A : Type) : Type := World E -> result Error A * World E.

Definition ret {E A} (a : A) : M E A := fun w => (Ok a, w).

Definition fail {E A} (e : Error) : M E A := fun w => (Err e, w).

Definition bind {E A B} (m : M E A) (k : A -> M E B) : M E B :=
  fun w =>
    match m w with
    | (Ok a, w') => k a w'
    | (Err e, w') => (Err e, w')
    end.

Notation "'let*' x := m 'in' k" := (bind m (fun x => k))
  (at level 10, x name, m at level 100, k at level 200).

Definition liftR {E A} (r : result Error A) : M E A := fun w => (r, w).

(** A provider call: it acts on the outside world only. *)
Definition call {E A} (f : E -> result ExtError A * E) : M E A :=
  fun w =>
    let '(r, e') := f (ext w) in
    (surface r, mkWorld e' (claims w) (faults w)).

(** As [call], with the failure left for the caller to classify. *)
Definition callRaw {E A} (f : E -> result ExtError A * E)
    : M E (result ExtError A) :=
  fun w =>
    let '(r, e') := f (ext w) in
    (Ok r, mkWorld e' (claims w) (faults w)).

(** The next claim-store call: whether it fails in transport, and the
    world with that entry of [faults] used up. *)
Definition headFault (fs : list (option ExtError)) : option ExtError :=
  match fs with [] => None | f :: _ => f end.

Definition nextFault {E} (w : World E) : option ExtError * World E :=
  (headFault (faults w), mkWorld (ext w) (claims w) (tail (faults w))).

(** The elements of a named set; a set never written to is empty. *)
Definition setOf (store : gmap string (gset string)) (key : string)
    : gset string :=
  default ∅ (store !! key).

(** Modelled from the spec: [datastore.GetSetDatastore] is not part of the
    sources at hand.  It acquires the set of the given name, or fails in
    transport; releasing the set afterwards ([Close]) leaves the stored
    elements alone. *)
Definition GetSetDatastore {E} (key : string) : M E string :=
  fun w =>
    match nextFault w with
    | (Some e, w') => (Err (External e), w')
    | (None, w') => (Ok key, w')
    end.

(** Modelled from the spec: [Add] of the datastore's sets is not part of the
    sources at hand (the tests of the set package are).  It is an atomic
    add-if-absent that reports whether the element was newly added: [true]
    for a new element, [false] for one already there; it may fail in
    transport, leaving the set as it is. *)
Definition SetDatastore_Add {E} (key elem : string) : M E bool :=
  fun w =>
    match nextFault w with
    | (Some e, w') => (Err (External e), w')
    | (None, w') =>
        if bool_decide (elem ∈ setOf (claims w') key) then (Ok false, w')
        else (Ok true,
              mkWorld (ext w')
                      (<[key := {[elem]} ∪ setOf (claims w') key]> (claims w'))
                      (faults w'))
    end.

(** ** [InitGrantService]

    [ENV] is the value of the environment variable of that name.  The
    short variable declaration [grantWallet, err := ...] introduces a
    variable local to the function; the two key assignments that follow
    write to that local wallet.  [initLocalWallet] is the wallet the function
    builds in it. *)

Definition initLocalWallet `{Externals E} (g : Globals)
    : result ExtError Wallet :=
  let info := mkWalletInfo "uphold" (GrantWalletCardId g) BAT in
  match uphold_FromWalletInfo info with
  | Err err => Err err
  | Ok grantWallet =>
      let grantWallet :=
        mkWallet (Info grantWallet)
                 (hex_DecodeString (GrantWalletPublicKeyHex g))
                 (PrivKey grantWallet) in
      let grantWallet :=
        mkWallet (Info grantWallet) (PubKey grantWallet)
                 (hex_DecodeString (GrantWalletPrivateKeyHex g)) in
      Ok grantWallet
  end.

Definition InitGrantService `{Externals E} (ENV : string) (g : Globals)
    : option Error * Globals :=
  let g :=
    mkGlobals (SettlementDestination g) (GrantSignatorPublicKeyHex g)
              (GrantWalletPublicKeyHex g) (GrantWalletPrivateKeyHex g)
              (GrantWalletCardId g)
              (hex_DecodeString (GrantSignatorPublicKeyHex g))
              (grantWallet g) (refreshBalance g) in
  if bool_decide (ENV = "production") && negb (refreshBalance g)
  then (Some RefreshBalanceDisabled, g)
  else
    match initLocalWallet g with
    | Err err => (Some (External err), g)
    | Ok _ => (None, g)
    end.

(** ** [FromCompactJWS] *)

Definition FromCompactJWS `{Externals E} (g : Globals) (s : string)
    : result Error Grant :=
  match jose_ParseSigned s with
  | Err err => Err (External err)
  | Ok jws =>
      if forallb (fun alg => bool_decide (alg = "ed25519")) (Signatures jws)
      then
        match jws_Verify jws (grantPublicKey g) with
        | Err err => Err (External err)
        | Ok grantBytes => surface (json_Unmarshal grantBytes)
        end
      else Err UnsupportedAlgorithm
  end.

(** ** [Verify] *)

(** Step 1: decode the tokens in request order, appending to [grants]. *)
Fixpoint decodeGrants `{Externals E} (g : Globals) (tokens : list string)
    (grants : list Grant) : result Error (list Grant) :=
  match tokens with
  | [] => Ok grants
  | grantJWS :: rest =>
      match FromCompactJWS g grantJWS with
      | Err err => Err err
      | Ok grant => decodeGrants g rest (grants ++ [grant])
      end
  end.

(** Steps 4 and 5: the loop over the sorted grants, [sumProbi] being the
    running sum on entry. *)
Fixpoint sumGrants (needed : Decimal) (grants : list Grant)
    (sumProbi : Decimal) : result Error Decimal :=
  match grants with
  | [] => Ok sumProbi
  | grant :: rest =>
      if GreaterThanOrEqual sumProbi needed then Err ExcessGrants
      else if negb (bool_decide (AltCurrency_ grant = BAT))
      then Err UnsupportedAsset
      else sumGrants needed rest (Add sumProbi (Probi grant))
  end.

(** Step 3: [sort.Sort(sort.Reverse(ByProbi(grants)))]. *)
Definition sortGrants `{SortImpl} (grants : list Grant) : list Grant :=
  sort_Sort (sort_Reverse ByProbi_Less) grants.

(** Steps 3 to 5: the sorted grants and their total. *)
Definition selectGrants `{SortImpl} (needed : Decimal) (grants : list Grant)
    : result Error (list Grant * Decimal) :=
  let grants := sortGrants grants in
  match sumGrants needed grants (New 0 1) with
  | Err err => Err err
  | Ok sumProbi => Ok (grants, sumProbi)
  end.

Definition grantsKey (grant : Grant) : string :=
  "promotion:" +:+ UUID_String (PromotionId grant) +:+ ":grants".

Definition walletsKey (grant : Grant) : string :=
  "promotion:" +:+ UUID_String (PromotionId grant) +:+ ":wallets".

(** Step 6: the loop claiming each grant and the wallet. *)
Fixpoint claimGrants {E} (providerId : string) (grants : list Grant)
    : M E unit :=
  match grants with
  | [] => ret tt
  | grant :: rest =>
      let* redeemedGrants := GetSetDatastore (grantsKey grant) in
      let* redeemedWallets := GetSetDatastore (walletsKey grant) in
      let* result :=
        SetDatastore_Add redeemedGrants (UUID_String (GrantId grant)) in
      if negb result then fail (AlreadyRedeemed (GrantId grant))
      else
        let* result := SetDatastore_Add redeemedWallets providerId in
        if negb result then fail (AlreadyRedeemedByWallet providerId)
        else claimGrants providerId rest
  end.

Definition Verify `{Externals E} `{SortImpl} (g : Globals)
    (req : RedeemGrantsRequest) : M E TransactionInfo :=
  let* grants := liftR (decodeGrants g (Grants req) []) in
  let* userWallet := call (provider_GetWallet (ReqWalletInfo req)) in
  let* balance := call (GetBalance userWallet (refreshBalance g)) in
  let* txInfo := call (VerifyTransaction userWallet (Transaction req)) in
  if negb (bool_decide (TxAltCurrency txInfo = BAT)) then fail AssetMismatch
  else
    let limit := New 20 1 in
    if LessThan (TxProbi txInfo) (BAT_ToProbi limit) then fail BelowMinimum
    else if LessThan (TxProbi txInfo) (SpendableProbi balance)
    then fail NoShortfall
    else if negb (bool_decide (Destination txInfo = SettlementDestination g))
    then fail WrongDestination
    else
      let* submitted :=
        callRaw (SubmitTransaction userWallet (Transaction req)) in
      match submitted with
      | Ok _ => fail UnexpectedSuccess
      | Err err =>
          if IsInvalidSignature err then fail WrongPublicKey
          else if negb (IsInsufficientBalance err) then fail (External err)
          else
            let needed := Sub (TxProbi txInfo) (SpendableProbi balance) in
            let* selected := liftR (selectGrants needed grants) in
            let '(grants, sumProbi) := selected in
            let* _ := claimGrants (ProviderId (ReqWalletInfo req)) grants in
            ret (mkTransactionInfo BAT sumProbi
                                   (ProviderId (ReqWalletInfo req)))
      end.

(** ** [Redeem]

    A call either returns (with or without an error) or panics on a nil
    dereference.  [txInfo] is a pointer: the first [Verify] leaves it nil
    when it fails.  The call [grantWallet.Transfer(txInfo.AltCurrency, ...)]
    dereferences both the interface value [grantWallet] and [txInfo]; the
    run-time error is the same whichever of the two is nil. *)

Inductive Outcome : Type :=
| Returned (err : option Error)
| Panicked.

Definition Redeem `{Externals E} `{SortImpl} (g : Globals)
    (req : RedeemGrantsRequest) (w : World E) : Outcome * World E :=
  let '(first, w) := Verify g req w in
  let txInfo := match first with Ok t => Some t | Err _ => None end in
  let '(second, w) := Verify g req w in
  match second with
  | Err err => (Returned (Some err), w)
  | Ok _ =>
      match call (provider_GetWallet (ReqWalletInfo req)) w with
      | (Err err, w) => (Returned (Some err), w)
      | (Ok userWallet, w) =>
          match grantWallet g, txInfo with
          | Some custodial, Some txInfo =>
              match call (Transfer custodial (TxAltCurrency txInfo)
                                   (TxProbi txInfo) (Destination txInfo)) w
              with
              | (Err err, w) => (Returned (Some err), w)
              | (Ok _, w) =>
                  match call (SubmitTransaction userWallet
                                                (Transaction req)) w with
                  | (Err err, w) => (Returned (Some err), w)
                  | (Ok _, w) => (Returned None, w)
                  end
              end
          | _, _ => (Panicked, w)
          end
      end
  end.

(** ** A concrete world for the scenarios

    Amounts are whole BAT, eighteen decimal places to the probi.  A token
    is accepted as signed and decodes to the grant it names.  The provider
    counts the calls made to it: it reports [balance] as spendable, decodes
    every transaction to [amount] for [destination], refuses to submit for
    lack of funds, and, when [flakyFirst] is set, fails the very first call
    to it. *)

Definition scenarioGrant (token : string) : result ExtError Grant :=
  if bool_decide (token = "grant-25")
  then Ok (mkGrant BAT "g-25" (New 25 18) "promo-1")
  else if bool_decide (token = "grant-250")
  then Ok (mkGrant BAT "g-250" (New 250 18) "promo-1")
  else if bool_decide (token = "grant-150a")
  then Ok (mkGrant BAT "g-150a" (New 150 18) "promo-2")
  else if bool_decide (token = "grant-150b")
  then Ok (mkGrant BAT "g-150b" (New 150 18) "promo-2")
  else Err (mkExtError OtherKind "invalid character").

Definition scenarioExternals (flakyFirst : bool) (balance amount : Decimal)
    (destination : string) : Externals nat := {|
  jose_ParseSigned := fun s => Ok (mkJWS ["ed25519"] s);
  jws_Verify := fun jws _ => Ok (Signed jws);
  json_Unmarshal := scenarioGrant;
  batDecimals := 18;
  provider_GetWallet := fun info n =>
    if flakyFirst && Nat.eqb n 0
    then (Err (mkExtError OtherKind "connection reset"), S n)
    else (Ok (mkWallet info [] []), S n);
  GetBalance := fun _ _ n => (Ok (mkBalance balance), S n);
  VerifyTransaction := fun _ _ n =>
    (Ok (mkTransactionInfo BAT amount destination), S n);
  SubmitTransaction := fun _ _ n =>
    (Err (mkExtError InsufficientBalanceKind "insufficient balance"), S n);
  Transfer := fun _ a probi dest n => (Ok (mkTransactionInfo a probi dest), S n);
  uphold_FromWalletInfo := fun info => Ok (mkWallet info [] [])
|}.

Definition scenarioGlobals (custodial : option Wallet) : Globals :=
  mkGlobals "settlement" "00ff" "0a0b" "0c0d" "card-1" [] custodial true.

Definition scenarioRequest (tokens : list string) : RedeemGrantsRequest :=
  mkRequest tokens (mkWalletInfo "uphold" "wallet-1" BAT) "signed-tx".

(** Nothing claimed yet, no call made yet, no transport failure ahead. *)
Definition freshWorld : World nat := mkWorld 0%nat ∅ [].

(** Two grants of equal probi, one of them in another asset. *)
Definition grantA : Grant := mkGrant BAT "g1" (New 10 0) "p1".
Definition grantB : Grant := mkGrant (OtherAsset "BTC") "g2" (New 10 0) "p2".

(** A custodial wallet with its keys in place. *)
Definition custodialWallet : Wallet :=
  mkWallet (mkWalletInfo "uphold" "card-1" BAT) [10%Z; 11%Z] [12%Z; 13%Z].

(** The request of another wallet. *)
Definition scenarioRequestOf (wallet : string) (tokens : list string)
    : RedeemGrantsRequest :=
  mkRequest tokens (mkWalletInfo "uphold" wallet BAT) "signed-tx".

(** The provider of the scenarios with the answer to a submission left
    open. *)
Definition scenarioExternalsSubmitting
    (submitted : result ExtError TransactionInfo) (balance amount : Decimal)
    (destination : string) : Externals nat := {|
  jose_ParseSigned := fun s => Ok (mkJWS ["ed25519"] s);
  jws_Verify := fun jws _ => Ok (Signed jws);
  json_Unmarshal := scenarioGrant;
  batDecimals := 18;
  provider_GetWallet := fun info n => (Ok (mkWallet info [] []), S n);
  GetBalance := fun _ _ n => (Ok (mkBalance balance), S n);
  VerifyTransaction := fun _ _ n =>
    (Ok (mkTransactionInfo BAT amount destination), S n);
  SubmitTransaction := fun _ _ n => (submitted, S n);
  Transfer := fun _ a probi dest n => (Ok (mkTransactionInfo a probi dest), S n);
  uphold_FromWalletInfo := fun info => Ok (mkWallet info [] [])
|}.

(** ** Vocabulary of the statements *)

(** The failures the package raises itself before it turns to the claim
    store: those of the token check, of the policy checks and of the
    selection. *)
Definition raisedByChecks (e : Error) : bool :=
  match e with
  | UnsupportedAlgorithm | AssetMismatch | BelowMinimum | NoShortfall
  | WrongDestination | UnexpectedSuccess | WrongPublicKey | ExcessGrants
  | UnsupportedAsset => true
  | _ => false
  end.

(** The probi of a grant, as a number. *)
Definition probiQ (grant : Grant) : Q := toQ (Probi grant).

(** The same, in canonical form. *)
Definition probiQc (grant : Grant) : Qc := Q2Qc (probiQ grant).

(** The sum of the probi of a list of grants, as a number. *)
Definition sumProbiQ (grants : list Grant) : Q :=
  fold_right (fun grant acc => (probiQ grant + acc)%Q) 0%Q grants.

Definition inBAT (grant : Grant) : Prop := AltCurrency_ grant = BAT.

(** Two outcomes of the selection step agree: the same failure, or success
    with the same total. *)
Definition sameOutcome (r1 r2 : result Error (list Grant * Decimal)) : Prop :=
  match r1, r2 with
  | Ok (_, t1), Ok (_, t2) => (toQ t1 == toQ t2)%Q
  | Err e1, Err e2 => e1 = e2
  | _, _ => False
  end.

(** Every element of every set of the first store is in the second. *)
Definition claimsIncluded (store1 store2 : gmap string (gset string))
    : Prop :=
  forall k x, x ∈ setOf store1 k -> x ∈ setOf store2 k.

(** The store after a successful [Add]. *)
Definition addTo (store : gmap string (gset string)) (key elem : string)
    : gmap string (gset string) :=
  <[key := {[elem]} ∪ setOf store key]> store.

(** The store after both claims of one grant. *)
Definition claimOne (p : string) (g : Grant)
    (store : gmap string (gset string)) : gmap string (gset string) :=
  addTo (addTo store (grantsKey g) (GrantId g)) (walletsKey g) p.

(** The coming [n] claim-store calls meet no transport failure. *)
Definition quiet {E : Type} (n : nat) (w : World E) : Prop :=
  Forall (fun f => f = None) (take n (faults w)).

(** The store after both claims of each grant of a list, first to last. *)
Definition claimAll (p : string) (grants : list Grant)
    (store : gmap string (gset string)) : gmap string (gset string) :=
  fold_left (fun store g => claimOne p g store) grants store.

(** Every claim of the grants of a list is in a store: the grant id under
    the grant's promotion, and the wallet [p] under the same promotion. *)
Definition claimedIn (p : string) (grants : list Grant)
    (store : gmap string (gset string)) : Prop :=
  forall h, h ∈ grants ->
    GrantId h ∈ setOf store (grantsKey h) /\ p ∈ setOf store (walletsKey h).

(** The request gets as far as the grants: its tokens decode to [gs], the
    provider resolves the wallet, reads the balance and decodes the
    transaction, the transaction passes the four policy checks, and the
    provider refuses to submit it for lack of funds, leaving its own state
    at [x]; [needed] is what the transaction asks for above the spendable
    balance. *)
Definition reachesGrants `{Externals E} (gl : Globals)
    (req : RedeemGrantsRequest) (w : World E) (gs : list Grant)
    (needed : Decimal) (x : E) : Prop :=
  exists uw bal tx x1 x2 x3 err,
    decodeGrants gl (Grants req) [] = Ok gs /\
    provider_GetWallet (ReqWalletInfo req) (ext w) = (Ok uw, x1) /\
    GetBalance uw (refreshBalance gl) x1 = (Ok bal, x2) /\
    VerifyTransaction uw (Transaction req) x2 = (Ok tx, x3) /\
    TxAltCurrency tx = BAT /\
    LessThan (TxProbi tx) (BAT_ToProbi (New 20 1)) = false /\
    LessThan (TxProbi tx) (SpendableProbi bal) = false /\
    Destination tx = SettlementDestination gl /\
    SubmitTransaction uw (Transaction req) x3 = (Err err, x) /\
    IsInvalidSignature err = false /\
    IsInsufficientBalance err = true /\
    needed = Sub (TxProbi tx) (SpendableProbi bal).

(** * Properties *)

Section DecimalFacts.
Local Open Scope Q_scope.

Lemma ten_nonzero : ~ (10 # 1) == 0.
Proof. intro H. discriminate H. Qed.

Lemma ten_pow_pos (e : Z) : 0 < (10 # 1) ^ e.
Proof. apply Qpower_0_lt. reflexivity. Qed.

Lemma exp_rescale (d : Decimal) (e : Z) : exp (rescale d e) = e.
Proof. unfold rescale. repeat case_match; reflexivity. Qed.

Lemma toQ_rescale_down (d : Decimal) (e : Z) :
  (e <= exp d)%Z -> toQ (rescale d e) == toQ d.
Proof.
  intros He. unfold rescale, toQ.
  destruct (Z.ltb_spec (exp d) e) as [H1|H1]; [lia|].
  destruct (Z.ltb_spec e (exp d)) as [H2|H2]; cbn [value exp].
  - rewrite Z.abs_neq by lia.
    replace (- (e - exp d))%Z with (exp d - e)%Z by lia.
    rewrite inject_Z_mult, Zpower_Qpower by lia.
    replace (exp d) with ((exp d - e) + e)%Z at 2 by lia.
    rewrite (Qpower_plus _ _ _ ten_nonzero).
    change (inject_Z 10) with (10 # 1). ring.
  - replace e with (exp d) by lia. reflexivity.
Qed.

Lemma toQ_at_exp (d : Decimal) (e : Z) :
  toQ (rescale d e) == inject_Z (value (rescale d e)) * (10 # 1) ^ e.
Proof. unfold toQ. rewrite exp_rescale. reflexivity. Qed.

Lemma toQ_Add (d d2 : Decimal) : toQ (Add d d2) == toQ d + toQ d2.
Proof.
  rewrite <- (toQ_rescale_down d (Z.min (exp d) (exp d2))) by lia.
  rewrite <- (toQ_rescale_down d2 (Z.min (exp d) (exp d2))) by lia.
  rewrite !toQ_at_exp. unfold Add, toQ. cbn [value exp].
  rewrite inject_Z_plus. ring.
Qed.

Lemma toQ_Sub (d d2 : Decimal) : toQ (Sub d d2) == toQ d - toQ d2.
Proof.
  rewrite <- (toQ_rescale_down d (Z.min (exp d) (exp d2))) by lia.
  rewrite <- (toQ_rescale_down d2 (Z.min (exp d) (exp d2))) by lia.
  rewrite !toQ_at_exp. unfold Sub, toQ. cbn [value exp].
  rewrite <- Z.add_opp_r, inject_Z_plus, inject_Z_opp. ring.
Qed.

Lemma toQ_Mul (d d2 : Decimal) : toQ (Mul d d2) == toQ d * toQ d2.
Proof.
  unfold Mul, toQ. cbn [value exp].
  rewrite inject_Z_mult, (Qpower_plus _ _ _ ten_nonzero). ring.
Qed.

Lemma Qcompare_scaled (a b : Z) (c : Q) :
  0 < c -> (inject_Z a * c ?= inject_Z b * c) = (a ?= b)%Z.
Proof.
  intros Hc. destruct (Z.compare_spec a b) as [E|L|G].
  - subst. apply Qeq_alt. reflexivity.
  - apply Qlt_alt. apply Qmult_lt_compat_r; [exact Hc|].
    rewrite <- Zlt_Qlt. exact L.
  - apply Qgt_alt. apply Qmult_lt_compat_r; [exact Hc|].
    rewrite <- Zlt_Qlt. exact G.
Qed.

(** [Cmp] compares the numbers the two decimals stand for. *)
Lemma Cmp_toQ (d d2 : Decimal) : Cmp d d2 = (toQ d ?= toQ d2).
Proof.
  unfold Cmp. destruct (Z.eqb_spec (exp d) (exp d2)) as [E|N].
  - unfold toQ. rewrite E. symmetry. apply Qcompare_scaled, ten_pow_pos.
  - cbv zeta.
    rewrite <- (toQ_rescale_down d (Z.min (exp d) (exp d2))) by lia.
    rewrite <- (toQ_rescale_down d2 (Z.min (exp d) (exp d2))) by lia.
    rewrite !toQ_at_exp. symmetry. apply Qcompare_scaled, ten_pow_pos.
Qed.

Lemma LessThan_spec (d d2 : Decimal) :
  LessThan d d2 = true <-> toQ d < toQ d2.
Proof.
  unfold LessThan. rewrite Cmp_toQ, Qlt_alt.
  destruct (toQ d ?= toQ d2); split; congruence.
Qed.

Lemma LessThan_false (d d2 : Decimal) :
  LessThan d d2 = false <-> toQ d2 <= toQ d.
Proof.
  rewrite <- not_true_iff_false, LessThan_spec. split.
  - apply Qnot_lt_le.
  - apply Qle_not_lt.
Qed.

Lemma GreaterThanOrEqual_spec (d d2 : Decimal) :
  GreaterThanOrEqual d d2 = true <-> toQ d2 <= toQ d.
Proof.
  rewrite <- LessThan_false. unfold GreaterThanOrEqual, LessThan.
  destruct (Cmp d d2); split; congruence.
Qed.

Lemma GreaterThanOrEqual_false (d d2 : Decimal) :
  GreaterThanOrEqual d d2 = false <-> toQ d < toQ d2.
Proof.
  rewrite <- LessThan_spec. unfold GreaterThanOrEqual, LessThan.
  destruct (Cmp d d2); split; congruence.
Qed.

End DecimalFacts.

(** ** The sort *)

Section SortFacts.
Context {A : Type} (less : A -> A -> bool).

Lemma insertLeft_perm (x : A) (l : list A) :
  Permutation (insertLeft less x l) (x :: l).
Proof.
  induction l as [|y ys IH]; simpl; [reflexivity|].
  destruct (less x y); [|reflexivity].
  rewrite IH. apply perm_swap.
Qed.

Lemma insertionSort_perm (l : list A) : Permutation (insertionSort less l) l.
Proof.
  unfold insertionSort. rewrite <- Permutation_rev.
  assert (G : forall acc,
    Permutation (fold_left (fun acc x => insertLeft less x acc) l acc)
                (l ++ acc)).
  { induction l as [|x xs IH]; intros acc; simpl; [reflexivity|].
    rewrite IH, insertLeft_perm. symmetry. apply Permutation_middle. }
  rewrite G, app_nil_r. reflexivity.
Qed.

Hypothesis less_swo : StrictWeakOrder less.

Lemma less_asym (x y : A) : less x y = true -> less y x = false.
Proof.
  intros Hxy. destruct (less y x) eqn:Hyx; [|reflexivity].
  rewrite <- (less_irrefl less less_swo x).
  symmetry. exact (less_trans less less_swo x y x Hxy Hyx).
Qed.

(** The sorted part, last element first: no element is [less] than a
    later one of the list. *)
Lemma insertLeft_sorted (x : A) (l : list A) :
  StronglySorted (fun u v => less u v = false) l ->
  StronglySorted (fun u v => less u v = false) (insertLeft less x l).
Proof.
  induction 1 as [|y ys Hys IH Hy]; simpl.
  - repeat constructor.
  - destruct (less x y) eqn:Hxy.
    + constructor; [exact IH|].
      eapply Permutation_Forall; [symmetry; apply insertLeft_perm|].
      constructor; [apply less_asym, Hxy | exact Hy].
    + constructor; [constructor; assumption|].
      constructor; [exact Hxy|].
      eapply Forall_impl; [exact Hy|].
      intros z Hz. exact (less_neg_trans less less_swo x y z Hxy Hz).
Qed.

Lemma StronglySorted_rev (R : A -> A -> Prop) (l : list A) :
  StronglySorted R l -> StronglySorted (fun x y => R y x) (rev l).
Proof.
  induction 1 as [|y ys Hys IH Hy]; simpl; [constructor|].
  apply StronglySorted_app_2; [|exact IH|repeat constructor].
  intros x1 x2 H1 H2. apply list_elem_of_singleton in H2. subst x2.
  rewrite Forall_forall in Hy. apply Hy.
  apply list_elem_of_In, in_rev, list_elem_of_In, H1.
Qed.

Lemma insertionSort_sorted (l : list A) :
  StronglySorted (fun x y => less y x = false) (insertionSort less l).
Proof.
  unfold insertionSort.
  apply (StronglySorted_rev (fun u v => less u v = false)).
  assert (G : forall acc,
    StronglySorted (fun u v => less u v = false) acc ->
    StronglySorted (fun u v => less u v = false)
      (fold_left (fun acc x => insertLeft less x acc) l acc)).
  { induction l as [|x xs IH]; intros acc Hacc; simpl; [exact Hacc|].
    apply IH, insertLeft_sorted, Hacc. }
  apply G. constructor.
Qed.

End SortFacts.

(** [sort.Sort] as it runs on a short slice. *)
#[export] Instance insertionSortImpl : SortImpl := {|
  sort_Sort := @insertionSort;
  sort_Sort_perm := @insertionSort_perm;
  sort_Sort_sorted := fun A less l swo => insertionSort_sorted less swo l
|}.

Section GrantOrder.
Local Open Scope Q_scope.

Lemma Reverse_ByProbi_Less_spec (x y : Grant) :
  sort_Reverse ByProbi_Less x y = false <-> probiQ x <= probiQ y.
Proof. unfold sort_Reverse, ByProbi_Less. apply LessThan_false. Qed.

Lemma Reverse_ByProbi_swo : StrictWeakOrder (sort_Reverse ByProbi_Less).
Proof.
  split.
  - intros x. apply Reverse_ByProbi_Less_spec. apply Qle_refl.
  - intros x y z. unfold sort_Reverse, ByProbi_Less.
    rewrite !LessThan_spec. intros H1 H2. eapply Qlt_trans; eassumption.
  - intros x y z. rewrite !Reverse_ByProbi_Less_spec.
    intros H1 H2. eapply Qle_trans; eassumption.
Qed.

Context `{SortImpl}.

Lemma sortGrants_perm (grants : list Grant) :
  Permutation (sortGrants grants) grants.
Proof. apply sort_Sort_perm. Qed.

(** Largest probi first. *)
Lemma sortGrants_descending (grants : list Grant) :
  StronglySorted (fun x y => probiQ y <= probiQ x) (sortGrants grants).
Proof.
  pose proof (sort_Sort_sorted _ _ grants Reverse_ByProbi_swo) as Hs.
  fold (sortGrants grants) in Hs.
  induction Hs as [|x l Hl IH Hx]; constructor; [exact IH|].
  eapply Forall_impl; [exact Hx|].
  intros y Hxy. apply Reverse_ByProbi_Less_spec, Hxy.
Qed.

End GrantOrder.

(** ** The selection step *)

Section Selection.
Local Open Scope Q_scope.

Lemma sumProbiQ_app (l1 l2 : list Grant) :
  sumProbiQ (l1 ++ l2) == sumProbiQ l1 + sumProbiQ l2.
Proof.
  induction l1 as [|g l1 IH]; simpl; [ring|]. rewrite IH. ring.
Qed.

Lemma sumProbiQ_perm (l1 l2 : list Grant) :
  Permutation l1 l2 -> sumProbiQ l1 == sumProbiQ l2.
Proof.
  induction 1 as [|g l1 l2 _ IH|g h l|l1 l2 l3 _ IH1 _ IH2]; simpl.
  - reflexivity.
  - rewrite IH. reflexivity.
  - ring.
  - rewrite IH1. exact IH2.
Qed.

Lemma toQ_zero : toQ (New 0 1) == 0.
Proof. reflexivity. Qed.

(** The loop stops with [ExcessGrants] exactly when it reaches a grant with
    the running sum already at [needed]. *)
Lemma sumGrants_Excess_iff (needed : Decimal) (l : list Grant) :
  forall s : Decimal,
    sumGrants needed l s = Err ExcessGrants <->
    exists pre g post,
      l = pre ++ g :: post /\ Forall inBAT pre /\
      toQ needed <= toQ s + sumProbiQ pre.
Proof.
  induction l as [|g rest IH]; intros s; simpl.
  - split; [discriminate|]. intros (pre & h & post & E & _).
    destruct pre; discriminate E.
  - destruct (GreaterThanOrEqual s needed) eqn:Hge.
    + apply GreaterThanOrEqual_spec in Hge. split; [intros _|reflexivity].
      exists [], g, rest. simpl. repeat split; [constructor|lra].
    + apply GreaterThanOrEqual_false in Hge.
      destruct (bool_decide (AltCurrency_ g = BAT)) eqn:Hbat; simpl.
      * apply bool_decide_eq_true in Hbat. rewrite IH.
        pose proof (toQ_Add s (Probi g)) as Hadd. fold (probiQ g) in Hadd.
        split.
        -- intros (pre & h & post & E & Hpre & Hsum).
           exists (g :: pre), h, post. subst rest. simpl.
           repeat split; [constructor; assumption|lra].
        -- intros (pre & h & post & E & Hpre & Hsum).
           destruct pre as [|g' pre]; simpl in *; [lra|].
           injection E as -> ->. inversion Hpre; subst.
           exists pre, h, post. repeat split; [assumption|lra].
      * apply bool_decide_eq_false in Hbat. split; [discriminate|].
        intros (pre & h & post & E & Hpre & Hsum).
        destruct pre as [|g' pre]; simpl in *; [lra|].
        injection E as -> ->. inversion Hpre; subst. contradiction.
Qed.

(** The loop runs to the end when every grant is in BAT and is reached
    with the running sum still below [needed]; the result is the sum of
    all the grants. *)
Lemma sumGrants_Ok (needed : Decimal) (l : list Grant) :
  forall s : Decimal,
    (forall pre g post,
       l = pre ++ g :: post -> toQ s + sumProbiQ pre < toQ needed) ->
    Forall inBAT l ->
    exists total,
      sumGrants needed l s = Ok total /\ toQ total == toQ s + sumProbiQ l.
Proof.
  induction l as [|g rest IH]; intros s Hlt Hbat; simpl.
  - exists s. split; [reflexivity|ring].
  - inversion Hbat as [|? ? Hg Hrest]; subst.
    pose proof (Hlt [] g rest eq_refl) as H0. simpl in H0.
    assert (Hge : GreaterThanOrEqual s needed = false)
      by (apply GreaterThanOrEqual_false; lra).
    rewrite Hge, (bool_decide_eq_true_2 _ Hg). simpl.
    pose proof (toQ_Add s (Probi g)) as Hadd. fold (probiQ g) in Hadd.
    destruct (IH (Add s (Probi g))) as (total & Ht & Hq).
    + intros pre h post E. specialize (Hlt (g :: pre) h post).
      simpl in Hlt. rewrite E in Hlt. specialize (Hlt eq_refl). lra.
    + exact Hrest.
    + exists total. split; [exact Ht|lra].
Qed.

(** What a finished loop tells. *)
Lemma sumGrants_Ok_inv (needed : Decimal) (l : list Grant) :
  forall s total : Decimal,
    sumGrants needed l s = Ok total ->
    Forall inBAT l /\ toQ total == toQ s + sumProbiQ l.
Proof.
  induction l as [|g rest IH]; intros s total; simpl.
  - intros [= ->]. split; [constructor|ring].
  - destruct (GreaterThanOrEqual s needed); [discriminate|].
    destruct (bool_decide (AltCurrency_ g = BAT)) eqn:Hbat; simpl;
      [|discriminate].
    apply bool_decide_eq_true in Hbat. intros Hrun.
    destruct (IH _ _ Hrun) as [Hall Hq].
    pose proof (toQ_Add s (Probi g)) as Hadd. fold (probiQ g) in Hadd.
    split; [constructor; assumption|lra].
Qed.

Lemma sumGrants_errors (needed : Decimal) (l : list Grant) :
  forall (s : Decimal) (e : Error),
    sumGrants needed l s = Err e -> e = ExcessGrants \/ e = UnsupportedAsset.
Proof.
  induction l as [|g rest IH]; intros s e; simpl; [discriminate|].
  destruct (GreaterThanOrEqual s needed); [intros [= <-]; auto|].
  destruct (negb _); [intros [= <-]; auto|]. apply IH.
Qed.

End Selection.

Section SelectionStep.
Local Open Scope Q_scope.


End SelectionStep.


(** ** The order of the input and the outcome of the selection *)

Section InputOrder.
Local Open Scope Q_scope.

Lemma probiQc_le (x y : Grant) :
  (probiQc x <= probiQc y)%Qc <-> probiQ x <= probiQ y.
Proof.
  unfold probiQc, Qcle, Q2Qc. simpl. rewrite !Qred_correct. reflexivity.
Qed.

Lemma probiQc_eq (x y : Grant) :
  probiQc x = probiQc y <-> probiQ x == probiQ y.
Proof. unfold probiQc. apply Q2Qc_eq_iff. Qed.

Lemma fmap_eq_Forall2 {A B : Type} (f : A -> B) (l1 l2 : list A) :
  f <$> l1 = f <$> l2 -> Forall2 (fun x y => f x = f y) l1 l2.
Proof.
  revert l2. induction l1 as [|x l1 IH]; intros [|y l2] E;
    try discriminate E; [constructor|].
  injection E as Hxy E. constructor; [exact Hxy|apply IH, E].
Qed.

(** Grants sorted by descending probi show the same probi at every
    position, however the two lists were ordered before. *)
Lemma descending_same_probi (s1 s2 : list Grant) :
  StronglySorted (fun x y => probiQ y <= probiQ x) s1 ->
  StronglySorted (fun x y => probiQ y <= probiQ x) s2 ->
  Permutation s1 s2 ->
  Forall2 (fun x y => probiQ x == probiQ y) s1 s2.
Proof.
  intros H1 H2 Hp.
  assert (E : probiQc <$> s1 = probiQc <$> s2).
  { apply (StronglySorted_unique_strong (fun a b : Qc => (b <= a)%Qc)).
    - intros a b _ _ Hab Hba. apply Qcle_antisym; assumption.
    - eapply StronglySorted_fmap; [|exact H1].
      intros x y Hxy. apply probiQc_le, Hxy.
    - eapply StronglySorted_fmap; [|exact H2].
      intros x y Hxy. apply probiQc_le, Hxy.
    - apply fmap_Permutation, Hp. }
  apply fmap_eq_Forall2 in E.
  eapply Forall2_impl; [exact E|].
  intros x y Hxy. apply probiQc_eq, Hxy.
Qed.

Lemma GreaterThanOrEqual_toQ (s1 s2 n : Decimal) :
  toQ s1 == toQ s2 -> GreaterThanOrEqual s1 n = GreaterThanOrEqual s2 n.
Proof.
  intros Hs. unfold GreaterThanOrEqual. rewrite !Cmp_toQ, Hs. reflexivity.
Qed.

Lemma sumGrants_same_probi (needed : Decimal) (l1 l2 : list Grant) :
  Forall2 (fun x y => probiQ x == probiQ y) l1 l2 ->
  Forall inBAT l1 -> Forall inBAT l2 ->
  forall s1 s2 : Decimal,
    toQ s1 == toQ s2 ->
    match sumGrants needed l1 s1, sumGrants needed l2 s2 with
    | Ok t1, Ok t2 => toQ t1 == toQ t2
    | Err e1, Err e2 => e1 = e2
    | _, _ => False
    end.
Proof.
  induction 1 as [|x y l1 l2 Hxy Hl IH]; intros Hb1 Hb2 s1 s2 Hs; simpl.
  - exact Hs.
  - inversion Hb1 as [|? ? Hx Hb1']; inversion Hb2 as [|? ? Hy Hb2']; subst.
    rewrite (GreaterThanOrEqual_toQ s1 s2 needed Hs).
    destruct (GreaterThanOrEqual s2 needed); [reflexivity|].
    rewrite (bool_decide_eq_true_2 _ Hx), (bool_decide_eq_true_2 _ Hy).
    simpl. apply IH; [assumption..|].
    rewrite !toQ_Add. unfold probiQ in Hxy. rewrite Hs, Hxy. reflexivity.
Qed.

End InputOrder.

(** C8, as stated, fails: two grants of equal probi keep the order in which
    they were supplied, and with it the failure reported changes. *)
Lemma selectGrants_order_dependent :
  Permutation [grantA; grantB] [grantB; grantA] /\
  sortGrants [grantA; grantB] = [grantA; grantB] /\
  sortGrants [grantB; grantA] = [grantB; grantA] /\
  selectGrants (New 10 0) [grantA; grantB] = Err ExcessGrants /\
  selectGrants (New 10 0) [grantB; grantA] = Err UnsupportedAsset.
Proof.
  split; [apply perm_swap|]. repeat split; vm_compute; reflexivity.
Qed.

(** C8, amended.  The selection step is a function of the list of grants
    and of [needed].  For two orders of supply of the same grants, both
    sorted lists are in descending order of probi and show the same probi
    at every position (grants of equal probi may change places: the order
    has no tie-break); when all the grants are in BAT the outcome is the
    same for both: the same failure, or success with the same total. *)
Theorem selectGrants_input_order `{SortImpl}
    (needed : Decimal) (l1 l2 : list Grant) :
  Permutation l1 l2 ->
  StronglySorted (fun x y => (probiQ y <= probiQ x)%Q) (sortGrants l1) /\
  StronglySorted (fun x y => (probiQ y <= probiQ x)%Q) (sortGrants l2) /\
  Forall2 (fun x y => (probiQ x == probiQ y)%Q)
          (sortGrants l1) (sortGrants l2) /\
  (Forall inBAT l1 ->
   sameOutcome (selectGrants needed l1) (selectGrants needed l2)).
Proof.
  intros Hp.
  assert (Hs : Permutation (sortGrants l1) (sortGrants l2)).
  { rewrite !sortGrants_perm. exact Hp. }
  pose proof (descending_same_probi _ _ (sortGrants_descending l1)
                (sortGrants_descending l2) Hs) as Hsame.
  split; [apply sortGrants_descending|].
  split; [apply sortGrants_descending|].
  split; [exact Hsame|].
  intros Hb1.
  assert (Hb1' : Forall inBAT (sortGrants l1)).
  { eapply Permutation_Forall; [symmetry; apply sortGrants_perm|exact Hb1]. }
  assert (Hb2' : Forall inBAT (sortGrants l2)).
  { eapply Permutation_Forall; [exact Hs|exact Hb1']. }
  pose proof (sumGrants_same_probi needed _ _ Hsame Hb1' Hb2'
                (New 0 1) (New 0 1) (Qeq_refl _)) as Hsum.
  unfold sameOutcome, selectGrants.
  destruct (sumGrants needed (sortGrants l1) (New 0 1)),
           (sumGrants needed (sortGrants l2) (New 0 1)); exact Hsum.
Qed.

(** Grants of 10 and 15 supplied in either order against a shortfall of
    20. *)
Lemma selectGrants_input_order_witness :
  sameOutcome
    (selectGrants (New 20 0)
       [mkGrant BAT "g1" (New 10 0) "p1"; mkGrant BAT "g2" (New 15 0) "p2"])
    (selectGrants (New 20 0)
       [mkGrant BAT "g2" (New 15 0) "p2"; mkGrant BAT "g1" (New 10 0) "p1"]).
Proof.
  apply (selectGrants_input_order (New 20 0)
    [mkGrant BAT "g1" (New 10 0) "p1"; mkGrant BAT "g2" (New 15 0) "p2"]
    [mkGrant BAT "g2" (New 15 0) "p2"; mkGrant BAT "g1" (New 10 0) "p1"]).
  - apply perm_swap.
  - repeat constructor.
Defined.

(** ** The claim store *)

Section Keys.

Lemma string_app_cons (c : ascii) (a b : string) :
  String c a +:+ b = String c (a +:+ b).
Proof. reflexivity. Qed.

Lemma string_app_nil (b : string) : "" +:+ b = b.
Proof. reflexivity. Qed.

Lemma string_length_app (a b : string) :
  String.length (a +:+ b) = String.length a + String.length b.
Proof.
  induction a as [|c a IH]; [reflexivity|].
  rewrite string_app_cons. simpl. rewrite IH. reflexivity.
Qed.

Lemma string_app_assoc (a b c : string) :
  (a +:+ b) +:+ c = a +:+ (b +:+ c).
Proof.
  induction a as [|x a IH]; [reflexivity|].
  rewrite !string_app_cons, IH. reflexivity.
Qed.

Lemma string_app_tail_eq (a b t u : string) :
  String.length t = String.length u -> a +:+ t = b +:+ u -> a = b /\ t = u.
Proof.
  intros Hlen. revert b.
  induction a as [|c a IH]; intros [|c' b] E;
    rewrite ?string_app_cons, ?string_app_nil in E.
  - split; [reflexivity|exact E].
  - apply (f_equal String.length) in E. simpl in E.
    rewrite string_length_app in E. lia.
  - apply (f_equal String.length) in E. simpl in E.
    rewrite string_length_app in E. lia.
  - injection E as -> E. destruct (IH _ E) as [-> ->]. done.
Qed.

Lemma grantsKey_inj (g h : Grant) :
  grantsKey g = grantsKey h -> PromotionId g = PromotionId h.
Proof.
  unfold grantsKey, UUID_String. intros E.
  apply (inj (String.app "promotion:")) in E.
  apply string_app_tail_eq in E; [tauto|reflexivity].
Qed.

Lemma walletsKey_inj (g h : Grant) :
  walletsKey g = walletsKey h -> PromotionId g = PromotionId h.
Proof.
  unfold walletsKey, UUID_String. intros E.
  apply (inj (String.app "promotion:")) in E.
  apply string_app_tail_eq in E; [tauto|reflexivity].
Qed.

(** The set of grants and the set of wallets of a promotion never share a
    name, whatever the two promotions. *)
Lemma grantsKey_ne_walletsKey (g h : Grant) : grantsKey g <> walletsKey h.
Proof.
  unfold grantsKey, walletsKey, UUID_String. intros E.
  apply (inj (String.app "promotion:")) in E.
  change (PromotionId h +:+ ":wallets")
    with (PromotionId h +:+ (":" +:+ "wallets")) in E.
  rewrite <- string_app_assoc in E.
  apply string_app_tail_eq in E; [|reflexivity].
  destruct E as [_ E]. discriminate E.
Qed.

Lemma setOf_insert (store : gmap string (gset string)) (k : string)
    (s : gset string) :
  setOf (<[k := s]> store) k = s.
Proof. unfold setOf. rewrite lookup_insert_eq. reflexivity. Qed.

Lemma setOf_insert_ne (store : gmap string (gset string)) (k k' : string)
    (s : gset string) :
  k <> k' -> setOf (<[k := s]> store) k' = setOf store k'.
Proof. intros Hne. unfold setOf. rewrite lookup_insert_ne; done. Qed.

End Keys.

Section ClaimLoop.
Context {E : Type}.
Implicit Types (w : World E) (p : string) (g : Grant).
Implicit Types (store : gmap string (gset string)).

Lemma claimsIncluded_refl store : claimsIncluded store store.
Proof. intros k x H. exact H. Qed.

Lemma claimsIncluded_trans store1 store2 store3 :
  claimsIncluded store1 store2 -> claimsIncluded store2 store3 ->
  claimsIncluded store1 store3.
Proof. intros H1 H2 k x H. apply H2, H1, H. Qed.

Lemma elem_of_addTo store key elem k x :
  x ∈ setOf (addTo store key elem) k <->
  (k = key /\ x = elem) \/ x ∈ setOf store k.
Proof.
  unfold addTo. destruct (decide (key = k)) as [->|Hne].
  - rewrite setOf_insert, elem_of_union, elem_of_singleton.
    split; (intros [Hx|Hx]; [left|right; exact Hx]); tauto.
  - rewrite setOf_insert_ne by exact Hne. split; [auto|].
    intros [[-> _]|H]; [contradiction|exact H].
Qed.

Lemma claimsIncluded_addTo store key elem :
  claimsIncluded store (addTo store key elem).
Proof. intros k x H. apply elem_of_addTo. right. exact H. Qed.

Lemma claimsIncluded_claimOne p g store :
  claimsIncluded store (claimOne p g store).
Proof.
  unfold claimOne.
  eapply claimsIncluded_trans; apply claimsIncluded_addTo.
Qed.

Lemma setOf_addTo_grants_wallets store g elem x :
  x ∈ setOf (addTo store (grantsKey g) elem) (walletsKey g) <->
  x ∈ setOf store (walletsKey g).
Proof.
  unfold addTo. rewrite setOf_insert_ne by apply grantsKey_ne_walletsKey.
  reflexivity.
Qed.

Lemma headFault_drop_lookup (i : nat) (fs : list (option ExtError))
    (e : ExtError) :
  headFault (drop i fs) = Some e -> fs !! i = Some (Some e).
Proof.
  revert fs. induction i as [|i IH]; intros [|f fs]; simpl;
    try discriminate.
  - intros ->. reflexivity.
  - apply IH.
Qed.

Lemma not_quiet (n i : nat) w (e : ExtError) :
  i < n -> headFault (drop i (faults w)) = Some e -> ~ quiet n w.
Proof.
  intros Hi Hh Hq. apply headFault_drop_lookup in Hh.
  unfold quiet in Hq. rewrite Forall_lookup in Hq.
  specialize (Hq i (Some e)). rewrite lookup_take_lt in Hq by exact Hi.
  specialize (Hq Hh). discriminate Hq.
Qed.

Lemma tail_drop {A : Type} (i : nat) (l : list A) :
  tail (drop i l) = drop (S i) l.
Proof.
  revert l. induction i as [|i IH]; intros [|x l]; simpl;
    try reflexivity. apply IH.
Qed.

Lemma GetSetDatastore_inv (k : string) w r w' :
  GetSetDatastore k w = (r, w') ->
  ext w' = ext w /\ claims w' = claims w /\ faults w' = tail (faults w) /\
  ((r = Ok k /\ headFault (faults w) = None) \/
   (exists e, r = Err (External e) /\ headFault (faults w) = Some e)).
Proof.
  unfold GetSetDatastore, nextFault.
  destruct (headFault (faults w)) as [e|]; intros [= <- <-]; cbn;
    repeat split; eauto.
Qed.

Lemma SetDatastore_Add_inv (k x : string) w r w' :
  SetDatastore_Add k x w = (r, w') ->
  ext w' = ext w /\ faults w' = tail (faults w) /\
  ((exists e, r = Err (External e) /\ headFault (faults w) = Some e /\
              claims w' = claims w) \/
   (r = Ok false /\ headFault (faults w) = None /\
    x ∈ setOf (claims w) k /\ claims w' = claims w) \/
   (r = Ok true /\ headFault (faults w) = None /\
    (x ∉ setOf (claims w) k) /\ claims w' = addTo (claims w) k x)).
Proof.
  unfold SetDatastore_Add, nextFault.
  destruct (headFault (faults w)) as [e|]; cbn.
  - intros [= <- <-]; cbn. repeat split. left. eauto.
  - case_bool_decide as Hin; intros [= <- <-]; cbn; repeat split.
    + right; left. auto.
    + right; right. auto.
Qed.

(** One turn of the loop, whatever the transport does: a transport failure,
    the grant already claimed, the wallet already claimed, or both claims
    made and the loop going on. *)
Lemma claimGrants_cons_inv p g rest w r w' :
  claimGrants p (g :: rest) w = (r, w') ->
  ((exists e, r = Err (External e)) /\ ext w' = ext w /\
   (claims w' = claims w \/
    claims w' = addTo (claims w) (grantsKey g) (GrantId g)) /\
   (~ quiet 3 w \/
    ((GrantId g ∉ setOf (claims w) (grantsKey g)) /\ ~ quiet 4 w))) \/
  (r = Err (AlreadyRedeemed (GrantId g)) /\
   GrantId g ∈ setOf (claims w) (grantsKey g) /\
   ext w' = ext w /\ claims w' = claims w /\
   faults w' = drop 3 (faults w)) \/
  (r = Err (AlreadyRedeemedByWallet p) /\
   (GrantId g ∉ setOf (claims w) (grantsKey g)) /\
   p ∈ setOf (claims w) (walletsKey g) /\
   ext w' = ext w /\
   claims w' = addTo (claims w) (grantsKey g) (GrantId g) /\
   faults w' = drop 4 (faults w)) \/
  ((GrantId g ∉ setOf (claims w) (grantsKey g)) /\
   (p ∉ setOf (claims w) (walletsKey g)) /\
   exists w1,
     ext w1 = ext w /\ claims w1 = claimOne p g (claims w) /\
     faults w1 = drop 4 (faults w) /\
     (forall rest', claimGrants p (g :: rest') w = claimGrants p rest' w1) /\
     claimGrants p rest w1 = (r, w')).
Proof.
  cbn [claimGrants]. unfold bind, UUID_String.
  destruct (GetSetDatastore (grantsKey g) w) as [r1 w1] eqn:E1.
  apply GetSetDatastore_inv in E1
    as (Hx1 & Hc1 & Hf1 & [[-> Hq1]|(e & -> & Hq1)]).
  2:{ intros [= <- <-]. left.
      split; [eauto|]. split; [exact Hx1|]. split; [left; exact Hc1|].
      left. apply (not_quiet 3 0 w e); [lia|exact Hq1]. }
  change (tail (faults w)) with (tail (drop 0 (faults w))) in Hf1.
  rewrite tail_drop in Hf1.
  destruct (GetSetDatastore (walletsKey g) w1) as [r2 w2] eqn:E2.
  apply GetSetDatastore_inv in E2
    as (Hx2 & Hc2 & Hf2 & [[-> Hq2]|(e & -> & Hq2)]).
  2:{ intros [= <- <-]. left.
      split; [eauto|]. split; [congruence|]. split; [left; congruence|].
      left. apply (not_quiet 3 1 w e); [lia|]. rewrite <- Hf1. exact Hq2. }
  rewrite Hf1, tail_drop in Hf2.
  destruct (SetDatastore_Add (grantsKey g) (GrantId g) w2) as [r3 w3] eqn:E3.
  apply SetDatastore_Add_inv in E3 as (Hx3 & Hf3 & E3).
  rewrite Hf2, tail_drop in Hf3. rewrite Hc2, Hc1 in E3.
  destruct E3 as [(e & -> & Hq3 & Hc3)|[(-> & Hq3 & Hin3 & Hc3)
                                        |(-> & Hq3 & Hin3 & Hc3)]].
  - intros [= <- <-]. left.
    split; [eauto|]. split; [congruence|]. split; [left; congruence|].
    left. apply (not_quiet 3 2 w e); [lia|]. rewrite <- Hf2. exact Hq3.
  - intros [= <- <-]. right; left.
    repeat split; [assumption|congruence|congruence|assumption].
  - cbn [negb].
    destruct (SetDatastore_Add (walletsKey g) p w3) as [r4 w4] eqn:E4.
    apply SetDatastore_Add_inv in E4 as (Hx4 & Hf4 & E4).
    rewrite Hf3, tail_drop in Hf4. rewrite Hc3 in E4.
    setoid_rewrite setOf_addTo_grants_wallets in E4.
    destruct E4 as [(e & -> & Hq4 & Hc4)|[(-> & Hq4 & Hin4 & Hc4)
                                          |(-> & Hq4 & Hin4 & Hc4)]].
    + intros [= <- <-]. left.
      split; [eauto|]. split; [congruence|]. split; [right; congruence|].
      right. split; [assumption|].
      apply (not_quiet 4 3 w e); [lia|]. rewrite <- Hf3. exact Hq4.
    + intros [= <- <-]. right; right; left.
      repeat split; [assumption|assumption|congruence|congruence|assumption].
    + cbn [negb]. intros Hrest. right; right; right.
      split; [assumption|]. split; [assumption|].
      exists w4.
      split; [congruence|]. split; [exact Hc4|]. split; [assumption|].
      split; [|assumption].
      intros rest'. reflexivity.
Qed.
Lemma claimGrants_app p (l1 l2 : list Grant) w :
  claimGrants p (l1 ++ l2) w =
  match claimGrants p l1 w with
  | (Ok _, w1) => claimGrants p l2 w1
  | (Err e, w1) => (Err e, w1)
  end.
Proof.
  revert w. induction l1 as [|g l1 IH]; intros w; [reflexivity|].
  cbn [app claimGrants]. unfold bind, fail.
  destruct (GetSetDatastore (grantsKey g) w) as [[k1|e1] w1];
    [|reflexivity].
  destruct (GetSetDatastore (walletsKey g) w1) as [[k2|e2] w2];
    [|reflexivity].
  destruct (SetDatastore_Add k1 (UUID_String (GrantId g)) w2)
    as [[[|]|e3] w3]; cbn [negb]; [|reflexivity|reflexivity].
  destruct (SetDatastore_Add k2 p w3) as [[[|]|e4] w4]; cbn [negb];
    [apply IH|reflexivity|reflexivity].
Qed.

(** The loop never takes a claim back, and leaves the outside world
    alone. *)
Lemma claimGrants_grows p (l : list Grant) :
  forall w r w',
    claimGrants p l w = (r, w') ->
    ext w' = ext w /\ claimsIncluded (claims w) (claims w').
Proof.
  induction l as [|g rest IH]; intros w r w' Hrun.
  - injection Hrun as <- <-. split; [reflexivity|apply claimsIncluded_refl].
  - apply claimGrants_cons_inv in Hrun
      as [(_ & Hx & [Hc|Hc] & _)|[(_ & _ & Hx & Hc & _)
         |[(_ & _ & _ & Hx & Hc & _)|(_ & _ & w1 & Hx & Hc & _ & _ & Hrest)]]];
      rewrite ?Hc; try (split; [exact Hx|]).
    + apply claimsIncluded_refl.
    + apply claimsIncluded_addTo.
    + apply claimsIncluded_refl.
    + apply claimsIncluded_addTo.
    + apply IH in Hrest as [Hx' Hinc]. split; [congruence|].
      eapply claimsIncluded_trans; [|exact Hinc].
      rewrite Hc. apply claimsIncluded_claimOne.
Qed.

(** After a loop that ran to its end every grant and, under each grant's
    promotion, the wallet are in the store. *)
Lemma claimGrants_Ok_committed p (l : list Grant) :
  forall w u w',
    claimGrants p l w = (Ok u, w') ->
    forall h, h ∈ l ->
      GrantId h ∈ setOf (claims w') (grantsKey h) /\
      p ∈ setOf (claims w') (walletsKey h).
Proof.
  induction l as [|g rest IH]; intros w u w' Hrun h Hh.
  - apply elem_of_nil in Hh. contradiction.
  - apply claimGrants_cons_inv in Hrun
      as [([e He] & _)|[(He & _)|[(He & _)
         |(_ & _ & w1 & Hx & Hc & _ & _ & Hrest)]]];
      try discriminate He.
    apply elem_of_cons in Hh as [->|Hh].
    + apply claimGrants_grows in Hrest as [_ Hinc]. rewrite Hc in Hinc.
      split; apply Hinc; unfold claimOne.
      * apply elem_of_addTo. right. apply elem_of_addTo. left. done.
      * apply elem_of_addTo. left. done.
    + exact (IH _ _ _ Hrest h Hh).
Qed.

(** The failures the loop can end with. *)
Lemma claimGrants_errors p (l : list Grant) :
  forall w e w',
    claimGrants p l w = (Err e, w') ->
    (exists x, e = External x) \/
    (exists h, h ∈ l /\ e = AlreadyRedeemed (GrantId h)) \/
    e = AlreadyRedeemedByWallet p.
Proof.
  induction l as [|g rest IH]; intros w e w' Hrun; [discriminate Hrun|].
  apply claimGrants_cons_inv in Hrun
    as [([x He] & _)|[(He & _)|[(He & _)
       |(_ & _ & w1 & _ & _ & _ & _ & Hrest)]]].
  - left. exists x. congruence.
  - right; left. exists g. split; [left|congruence].
  - right; right. congruence.
  - apply IH in Hrest as [Hx|[(h & Hh & He)|He]]; [auto| |auto].
    right; left. exists h. split; [right; exact Hh|exact He].
Qed.

(** A grant whose own claim or whose wallet claim is in the store already
    stops the loop. *)
Lemma claimGrants_head_claimed p g (rest : list Grant) w r w' :
  GrantId g ∈ setOf (claims w) (grantsKey g) \/
  p ∈ setOf (claims w) (walletsKey g) ->
  claimGrants p (g :: rest) w = (r, w') ->
  exists e, r = Err e.
Proof.
  intros Hin Hrun.
  apply claimGrants_cons_inv in Hrun
    as [([x He] & _)|[(He & _)|[(He & _)|(Hg & Hw & _)]]]; eauto.
  destruct Hin; contradiction.
Qed.

(** Two grants of one promotion in the list: the loop cannot run to its
    end. *)
Lemma claimGrants_same_promotion p (l1 l2 l3 : list Grant) (gi gj : Grant)
    w r w' :
  PromotionId gi = PromotionId gj ->
  claimGrants p (l1 ++ gi :: l2 ++ gj :: l3) w = (r, w') ->
  exists e, r = Err e.
Proof.
  intros Hpromo.
  replace (l1 ++ gi :: l2 ++ gj :: l3) with ((l1 ++ gi :: l2) ++ gj :: l3)
    by (rewrite <- app_assoc; reflexivity).
  rewrite claimGrants_app.
  destruct (claimGrants p (l1 ++ gi :: l2) w) as [[u|e] w1] eqn:Hpre.
  - apply claimGrants_head_claimed. right.
    assert (Hgi : gi ∈ l1 ++ gi :: l2)
      by (apply elem_of_app; right; left).
    destruct (claimGrants_Ok_committed _ _ _ _ _ Hpre gi Hgi) as [_ Hw].
    unfold walletsKey in *. rewrite <- Hpromo. exact Hw.
  - intros [= <- <-]. eauto.
Qed.

(** The loop adds nothing but the claims of its own grants. *)
Lemma claimGrants_adds_only p (l : list Grant) :
  forall w r w' k x,
    claimGrants p l w = (r, w') ->
    x ∈ setOf (claims w') k ->
    x ∈ setOf (claims w) k \/
    exists h, h ∈ l /\
      ((k = grantsKey h /\ x = GrantId h) \/ (k = walletsKey h /\ x = p)).
Proof.
  induction l as [|g rest IH]; intros w r w' k x Hrun Hx.
  - injection Hrun as <- <-. left. exact Hx.
  - assert (Hone : x ∈ setOf (addTo (claims w) (grantsKey g) (GrantId g)) k ->
                   x ∈ setOf (claims w) k \/
                   exists h, h ∈ g :: rest /\
                     ((k = grantsKey h /\ x = GrantId h) \/
                      (k = walletsKey h /\ x = p))).
    { intros Hin. apply elem_of_addTo in Hin as [[-> ->]|Hin]; [|auto].
      right. exists g. split; [left|auto]. }
    apply claimGrants_cons_inv in Hrun
      as [(_ & _ & [Hc|Hc] & _)|[(_ & _ & _ & Hc & _)
         |[(_ & _ & _ & _ & Hc & _)|(_ & _ & w1 & _ & Hc & _ & _ & Hrest)]]];
      rewrite ?Hc in Hx; auto.
    destruct (IH _ _ _ _ _ Hrest Hx) as [Hin|(h & Hh & Hk)].
    + rewrite Hc in Hin. unfold claimOne in Hin.
      apply elem_of_addTo in Hin as [[-> ->]|Hin]; [|auto].
      right. exists g. split; [left|auto].
    + right. exists h. split; [right; exact Hh|exact Hk].
Qed.

Lemma quiet_le (n m : nat) w : n <= m -> quiet m w -> quiet n w.
Proof.
  intros Hle Hq. unfold quiet in *. rewrite Forall_lookup in *.
  intros i f Hi. apply (Hq i f).
  apply lookup_take_Some in Hi as [Hi Hlt].
  rewrite lookup_take_lt by lia. exact Hi.
Qed.

Lemma quiet_drop (k n : nat) w w1 :
  quiet (k + n) w -> faults w1 = drop k (faults w) -> quiet n w1.
Proof.
  intros Hq Hf. unfold quiet in *. rewrite Hf. rewrite Forall_lookup in *.
  intros i f Hi. apply lookup_take_Some in Hi as [Hi Hlt].
  rewrite lookup_drop in Hi. apply (Hq (k + i) f).
  rewrite lookup_take_lt by lia. exact Hi.
Qed.

Lemma claimGrants_grant_present p g (rest : list Grant) w :
  quiet 3 w -> GrantId g ∈ setOf (claims w) (grantsKey g) ->
  exists w2,
    claimGrants p (g :: rest) w = (Err (AlreadyRedeemed (GrantId g)), w2) /\
    claims w2 = claims w.
Proof.
  intros Hq Hin.
  destruct (claimGrants p (g :: rest) w) as [r w2] eqn:Hrun.
  apply claimGrants_cons_inv in Hrun
    as [(_ & _ & _ & [Hn|[Hn _]])|[(-> & _ & _ & Hc & _)
       |[(_ & Hn & _)|(Hn & _)]]]; try contradiction.
  exists w2. split; [reflexivity|exact Hc].
Qed.

Lemma claimGrants_wallet_present p g (rest : list Grant) w :
  quiet 4 w -> (GrantId g ∉ setOf (claims w) (grantsKey g)) ->
  p ∈ setOf (claims w) (walletsKey g) ->
  exists w2,
    claimGrants p (g :: rest) w = (Err (AlreadyRedeemedByWallet p), w2) /\
    claims w2 = addTo (claims w) (grantsKey g) (GrantId g).
Proof.
  intros Hq Hg Hp.
  pose proof (quiet_le 3 4 w ltac:(lia) Hq) as Hq3.
  destruct (claimGrants p (g :: rest) w) as [r w2] eqn:Hrun.
  apply claimGrants_cons_inv in Hrun
    as [(_ & _ & _ & [Hn|[_ Hn]])|[(_ & Hn & _)
       |[(-> & _ & _ & _ & Hc & _)|(_ & Hn & _)]]]; try contradiction.
  exists w2. split; [reflexivity|exact Hc].
Qed.

Lemma claimGrants_both_new p g (rest : list Grant) w :
  quiet 4 w -> (GrantId g ∉ setOf (claims w) (grantsKey g)) ->
  (p ∉ setOf (claims w) (walletsKey g)) ->
  exists w1,
    claimGrants p (g :: rest) w = claimGrants p rest w1 /\
    ext w1 = ext w /\ claims w1 = claimOne p g (claims w) /\
    faults w1 = drop 4 (faults w).
Proof.
  intros Hq Hg Hp.
  pose proof (quiet_le 3 4 w ltac:(lia) Hq) as Hq3.
  destruct (claimGrants p (g :: rest) w) as [r w2] eqn:Hrun.
  apply claimGrants_cons_inv in Hrun
    as [(_ & _ & _ & [Hn|[_ Hn]])|[(_ & Hn & _)
       |[(_ & _ & Hn & _)|(_ & _ & w1 & Hx & Hc & Hf & _ & Hrest)]]];
    try contradiction.
  exists w1. rewrite Hrest. auto.
Qed.

(** Grants of distinct promotions, none claimed yet, for a wallet that
    has claimed under none of them: with no transport failure the loop
    claims them all. *)
Lemma claimGrants_fresh p (l : list Grant) :
  forall w,
    quiet (4 * length l) w ->
    NoDup (PromotionId <$> l) ->
    (forall h, h ∈ l -> GrantId h ∉ setOf (claims w) (grantsKey h)) ->
    (forall h, h ∈ l -> p ∉ setOf (claims w) (walletsKey h)) ->
    exists w1,
      claimGrants p l w = (Ok tt, w1) /\
      faults w1 = drop (4 * length l) (faults w).
Proof.
  induction l as [|g rest IH]; intros w Hq Hnd Hg Hp.
  - exists w. split; [reflexivity|]. rewrite drop_0. reflexivity.
  - rewrite fmap_cons in Hnd. apply NoDup_cons in Hnd as [Hg_promo Hnd].
    destruct (claimGrants_both_new p g rest w) as (w1 & Hrun & _ & Hc & Hf).
    + eapply quiet_le; [|exact Hq]. simpl. lia.
    + apply Hg. left.
    + apply Hp. left.
    + destruct (IH w1) as (w2 & Hrest & Hf2).
      * apply (quiet_drop 4 _ w); [|exact Hf].
        replace (4 + 4 * length rest) with (4 * length (g :: rest))
          by (simpl; lia). exact Hq.
      * exact Hnd.
      * intros h Hh. rewrite Hc. unfold claimOne.
        rewrite !elem_of_addTo.
        intros [[Hk _]|[[Hk _]|Hin]].
        -- exact (grantsKey_ne_walletsKey _ _ Hk).
        -- apply grantsKey_inj in Hk. apply Hg_promo.
           rewrite <- Hk. apply list_elem_of_fmap_2, Hh.
        -- apply (Hg h); [right; exact Hh|exact Hin].
      * intros h Hh. rewrite Hc. unfold claimOne.
        rewrite !elem_of_addTo.
        intros [[Hk _]|[[Hk _]|Hin]].
        -- apply walletsKey_inj in Hk. apply Hg_promo.
           rewrite <- Hk. apply list_elem_of_fmap_2, Hh.
        -- exact (grantsKey_ne_walletsKey _ _ (eq_sym Hk)).
        -- apply (Hp h); [right; exact Hh|exact Hin].
      * exists w2. rewrite Hrun. split; [exact Hrest|].
        rewrite Hf2, Hf, drop_drop. f_equal. simpl. lia.
Qed.

(** A failed loop: the grants before the one it stopped at were claimed
    in full, and those claims are still in the store. *)
Lemma claimGrants_Err_split p (l : list Grant) :
  forall w e w',
    claimGrants p l w = (Err e, w') ->
    exists pre g post w1,
      l = pre ++ g :: post /\
      claimGrants p pre w = (Ok tt, w1) /\
      claimsIncluded (claims w1) (claims w') /\
      ((e = AlreadyRedeemed (GrantId g) /\
        GrantId g ∈ setOf (claims w1) (grantsKey g) /\
        claims w' = claims w1) \/
       (e = AlreadyRedeemedByWallet p /\
        p ∈ setOf (claims w1) (walletsKey g) /\
        claims w' = addTo (claims w1) (grantsKey g) (GrantId g)) \/
       (exists x, e = External x)).
Proof.
  induction l as [|g rest IH]; intros w e w' Hrun; [discriminate Hrun|].
  apply claimGrants_cons_inv in Hrun
    as [([x He] & _ & Hc & _)|[(He & Hin & _ & Hc & _)
       |[(He & _ & Hin & _ & Hc & _)
        |(Hg & Hp & w1 & _ & Hc & _ & Hstep & Hrest)]]].
  - injection He as ->. exists [], g, rest, w.
    split; [reflexivity|]. split; [reflexivity|]. split; [|eauto].
    destruct Hc as [-> | ->];
      [apply claimsIncluded_refl|apply claimsIncluded_addTo].
  - injection He as ->. exists [], g, rest, w.
    split; [reflexivity|]. split; [reflexivity|].
    split; [rewrite Hc; apply claimsIncluded_refl|auto].
  - injection He as ->. exists [], g, rest, w.
    split; [reflexivity|]. split; [reflexivity|].
    split; [rewrite Hc; apply claimsIncluded_addTo|auto].
  - destruct (IH _ _ _ Hrest)
      as (pre & h & post & w2 & -> & Hpre & Hinc & Hcases).
    exists (g :: pre), h, post, w2.
    split; [reflexivity|]. split; [|split; [exact Hinc|exact Hcases]].
    rewrite Hstep. exact Hpre.
Qed.

End ClaimLoop.

(** ** The course of [Verify] *)

Section VerifyCourse.
Context {E : Type} `{Externals E} `{SortImpl}.
Implicit Types (w : World E) (g : Globals) (req : RedeemGrantsRequest).

Lemma Verify_inv g req w r w' :
  Verify g req w = (r, w') ->
  ((exists e, r = Err e) /\ claims w' = claims w /\ faults w' = faults w) \/
  (exists gs bal tx sorted total wmid rc,
     decodeGrants g (Grants req) [] = Ok gs /\
     TxAltCurrency tx = BAT /\
     LessThan (TxProbi tx) (BAT_ToProbi (New 20 1)) = false /\
     LessThan (TxProbi tx) (SpendableProbi bal) = false /\
     Destination tx = SettlementDestination g /\
     selectGrants (Sub (TxProbi tx) (SpendableProbi bal)) gs
       = Ok (sorted, total) /\
     claims wmid = claims w /\ faults wmid = faults w /\
     claimGrants (ProviderId (ReqWalletInfo req)) sorted wmid = (rc, w') /\
     r = match rc with
         | Ok _ => Ok (mkTransactionInfo BAT total
                                         (ProviderId (ReqWalletInfo req)))
         | Err e => Err e
         end).
Proof.
  unfold Verify, bind, liftR, call, callRaw, fail, ret.
  destruct (decodeGrants g (Grants req) []) as [gs|e0] eqn:Hdec.
  2:{ intros [= <- <-]. left. eauto. }
  destruct (provider_GetWallet (ReqWalletInfo req) (ext w)) as [[uw|e1] x1];
    cbn [surface ext claims faults].
  2:{ intros [= <- <-]. left. eauto. }
  destruct (GetBalance uw (refreshBalance g) x1) as [[bal|e2] x2];
    cbn [surface ext claims faults].
  2:{ intros [= <- <-]. left. eauto. }
  destruct (VerifyTransaction uw (Transaction req) x2) as [[tx|e3] x3];
    cbn [surface ext claims faults].
  2:{ intros [= <- <-]. left. eauto. }
  case_bool_decide as Hbat; cbn [negb].
  2:{ intros [= <- <-]. left. eauto. }
  destruct (LessThan (TxProbi tx) (BAT_ToProbi (New 20 1))) eqn:Hmin.
  { intros [= <- <-]. left. eauto. }
  destruct (LessThan (TxProbi tx) (SpendableProbi bal)) eqn:Hshort.
  { intros [= <- <-]. left. eauto. }
  case_bool_decide as Hdest; cbn [negb].
  2:{ intros [= <- <-]. left. eauto. }
  cbn [ext claims faults].
  destruct (SubmitTransaction uw (Transaction req) x3) as [[ok|err] x4].
  { intros [= <- <-]. left. eauto. }
  destruct (IsInvalidSignature err).
  { intros [= <- <-]. left. eauto. }
  destruct (IsInsufficientBalance err); cbn [negb].
  2:{ intros [= <- <-]. left. eauto. }
  destruct (selectGrants (Sub (TxProbi tx) (SpendableProbi bal)) gs)
    as [[sorted total]|e5] eqn:Hsel.
  2:{ intros [= <- <-]. left. eauto. }
  destruct (claimGrants (ProviderId (ReqWalletInfo req)) sorted
              (mkWorld x4 (claims w) (faults w))) as [rc w2] eqn:Hclaim.
  intros Hres. right.
  exists gs, bal, tx, sorted, total, (mkWorld x4 (claims w) (faults w)), rc.
  destruct rc as [u|e6]; injection Hres as <- <-;
    repeat split; assumption.
Qed.

(** [Verify] never takes a claim out of the store, however it ends. *)
Lemma Verify_grows g req w r w' :
  Verify g req w = (r, w') -> claimsIncluded (claims w) (claims w').
Proof.
  intros Hrun. apply Verify_inv in Hrun
    as [(_ & Hc & _)|(gs & bal & tx & sorted & total & wmid & rc & _ & _ & _
                      & _ & _ & _ & Hc & _ & Hclaim & _)].
  - rewrite Hc. apply claimsIncluded_refl.
  - apply claimGrants_grows in Hclaim as [_ Hinc]. rewrite <- Hc. exact Hinc.
Qed.

End VerifyCourse.

(** ** Claims and failures *)

Section ClaimTheorems.
Context {E : Type} `{Externals E} `{SortImpl}.

(** The loop on its own, with the grants [pre] before [g] claimed in full:
    if the grant id is present already the loop stops with
    [AlreadyRedeemed]; if the wallet is present already it stops with
    [AlreadyRedeemedByWallet], the grant's own claim made just before
    staying in the store; otherwise both are added and the loop goes on.
    The claims of [pre] are in the store at that point, and no claim is
    taken out again. *)
Lemma claimGrants_no_compensation (p : string) (pre post : list Grant)
    (g : Grant) (w w1 : World E) :
  claimGrants p pre w = (Ok tt, w1) ->
  (forall h, h ∈ pre ->
     GrantId h ∈ setOf (claims w1) (grantsKey h) /\
     p ∈ setOf (claims w1) (walletsKey h)) /\
  (quiet 3 w1 -> GrantId g ∈ setOf (claims w1) (grantsKey g) ->
   exists w2,
     claimGrants p (pre ++ g :: post) w
       = (Err (AlreadyRedeemed (GrantId g)), w2) /\
     claims w2 = claims w1) /\
  (quiet 4 w1 -> (GrantId g ∉ setOf (claims w1) (grantsKey g)) ->
   p ∈ setOf (claims w1) (walletsKey g) ->
   exists w2,
     claimGrants p (pre ++ g :: post) w
       = (Err (AlreadyRedeemedByWallet p), w2) /\
     claims w2 = addTo (claims w1) (grantsKey g) (GrantId g)) /\
  (quiet 4 w1 -> (GrantId g ∉ setOf (claims w1) (grantsKey g)) ->
   (p ∉ setOf (claims w1) (walletsKey g)) ->
   exists w2,
     claimGrants p (pre ++ g :: post) w = claimGrants p post w2 /\
     claims w2 = claimOne p g (claims w1)) /\
  (forall r w2,
     claimGrants p (pre ++ g :: post) w = (r, w2) ->
     claimsIncluded (claims w1) (claims w2)) /\
  (forall gl req (w0 : World E) r w2,
     Verify gl req w0 = (r, w2) -> claimsIncluded (claims w0) (claims w2)).
Proof.
  intros Hpre.
  assert (Happ : claimGrants p (pre ++ g :: post) w
                 = claimGrants p (g :: post) w1)
    by (rewrite claimGrants_app, Hpre; reflexivity).
  rewrite Happ.
  split; [exact (claimGrants_Ok_committed _ _ _ _ _ Hpre)|].
  split; [apply claimGrants_grant_present|].
  split; [apply claimGrants_wallet_present|].
  split.
  { intros Hq Hg Hp.
    destruct (claimGrants_both_new p g post w1 Hq Hg Hp)
      as (w2 & Hrun & _ & Hc & _).
    exists w2. split; assumption. }
  split.
  { intros r w2 Hrun. apply claimGrants_grows in Hrun as [_ Hinc].
    exact Hinc. }
  intros gl req w0 r w2. apply Verify_grows.
Qed.

End ClaimTheorems.

(** The first grant claimed, the second one claimed before by someone
    else: the loop stops at the second and the first stays claimed. *)
Lemma claimGrants_no_compensation_witness :
  exists w2 : World nat,
    claimGrants "wallet-1"
      ([mkGrant BAT "g-1" (New 150 18) "promo-1"]
       ++ mkGrant BAT "g-2" (New 150 18) "promo-2" :: [])
      (mkWorld 0%nat {["promotion:promo-2:grants" := {["g-2"]}]} [])
    = (Err (AlreadyRedeemed "g-2"), w2) /\
    "g-1" ∈ setOf (claims w2) "promotion:promo-1:grants".
Proof.
  destruct (claimGrants_no_compensation (E := nat)
              (H := scenarioExternals false (New 0 0) (New 0 0) "")
              "wallet-1" [mkGrant BAT "g-1" (New 150 18) "promo-1"] []
              (mkGrant BAT "g-2" (New 150 18) "promo-2")
              (mkWorld 0%nat {["promotion:promo-2:grants" := {["g-2"]}]} [])
              (mkWorld 0%nat
                 (claimOne "wallet-1" (mkGrant BAT "g-1" (New 150 18) "promo-1")
                    {["promotion:promo-2:grants" := {["g-2"]}]}) []))
    as (Hcommitted & Hgrant & _).
  - vm_compute. reflexivity.
  - destruct Hgrant as (w2 & Hrun & Hc).
    + constructor.
    + vm_compute. reflexivity.
    + exists w2. split; [exact Hrun|]. rewrite Hc.
      apply (Hcommitted (mkGrant BAT "g-1" (New 150 18) "promo-1")). left.
Defined.

Section SamePromotion.
Context {E : Type} `{Externals E} `{SortImpl}.

Lemma not_NoDup_split {A B : Type} `{EqDecision B} (f : A -> B)
    (l : list A) :
  ~ NoDup (f <$> l) ->
  exists l1 x l2 y l3, l = l1 ++ x :: l2 ++ y :: l3 /\ f x = f y.
Proof.
  induction l as [|a l IH]; intros Hnd.
  - exfalso. apply Hnd. constructor.
  - rewrite fmap_cons in Hnd.
    destruct (decide (f a ∈ f <$> l)) as [Hin|Hnin].
    + apply list_elem_of_fmap in Hin as (y & Hfy & Hy).
      apply list_elem_of_split in Hy as (l2 & l3 & ->).
      exists [], a, l2, y, l3. split; [reflexivity|exact Hfy].
    + destruct IH as (l1 & x & l2 & y & l3 & -> & Hxy).
      * intros Hl. apply Hnd. constructor; assumption.
      * exists (a :: l1), x, l2, y, l3. split; [reflexivity|exact Hxy].
Qed.

Lemma selectGrants_Ok_sorted (needed : Decimal) (gs sorted : list Grant)
    (total : Decimal) :
  selectGrants needed gs = Ok (sorted, total) -> sorted = sortGrants gs.
Proof.
  unfold selectGrants.
  destruct (sumGrants needed (sortGrants gs) (New 0 1)); [|discriminate].
  intros [= <- _]. reflexivity.
Qed.

(** A request whose grants include two of one promotion cannot pass
    [Verify]; and the loop on its own, with no transport failure, every
    grant unclaimed and distinct, and the wallet new to every promotion
    involved, stops with [AlreadyRedeemedByWallet] at the first grant whose
    promotion occurred before, the claims of the grants before it and that
    grant's own claim staying in the store. *)
Lemma Verify_same_promotion_fails :
  (forall gl req (w : World E) gs,
     decodeGrants gl (Grants req) [] = Ok gs ->
     ~ NoDup (PromotionId <$> gs) ->
     exists e, fst (Verify gl req w) = Err e) /\
  (forall (p : string) (pre post : list Grant) (g : Grant) (w : World E),
     quiet (4 * S (length pre)) w ->
     NoDup (PromotionId <$> pre) ->
     PromotionId g ∈ PromotionId <$> pre ->
     (forall h, h ∈ pre ++ [g] ->
        GrantId h ∉ setOf (claims w) (grantsKey h)) ->
     (forall h, h ∈ pre ->
        PromotionId h = PromotionId g -> GrantId h <> GrantId g) ->
     (forall h, h ∈ pre -> p ∉ setOf (claims w) (walletsKey h)) ->
     exists w',
       claimGrants p (pre ++ g :: post) w
         = (Err (AlreadyRedeemedByWallet p), w') /\
       (forall h, h ∈ pre ++ [g] ->
          GrantId h ∈ setOf (claims w') (grantsKey h)) /\
       (forall h, h ∈ pre -> p ∈ setOf (claims w') (walletsKey h))).
Proof.
  split.
  - intros gl req w gs Hdec Hdup.
    destruct (Verify gl req w) as [r w'] eqn:Hrun. cbn [fst].
    apply Verify_inv in Hrun
      as [(He & _)|(gs0 & bal & tx & sorted & total & wmid & rc & Hdec0 & _
                    & _ & _ & _ & Hsel & _ & _ & Hclaim & ->)];
      [exact He|].
    rewrite Hdec in Hdec0. injection Hdec0 as <-.
    apply selectGrants_Ok_sorted in Hsel. subst sorted.
    assert (Hdup' : ~ NoDup (PromotionId <$> sortGrants gs)).
    { intros Hnd. apply Hdup.
      eapply NoDup_Permutation_proper; [|exact Hnd].
      apply fmap_Permutation. symmetry. apply sortGrants_perm. }
    apply not_NoDup_split in Hdup'
      as (l1 & x & l2 & y & l3 & Hsplit & Hxy).
    rewrite Hsplit in Hclaim.
    apply (claimGrants_same_promotion _ _ _ _ _ _ _ _ _ Hxy) in Hclaim
      as [e ->].
    eauto.
  - intros p pre post g w Hq Hnd Hpromo Hfresh Hdistinct Hwallet.
    destruct (claimGrants_fresh p pre w) as (w1 & Hpre & Hf1).
    + eapply quiet_le; [|exact Hq]. lia.
    + exact Hnd.
    + intros h Hh. apply Hfresh, elem_of_app. left. exact Hh.
    + exact Hwallet.
    + pose proof (claimGrants_Ok_committed _ _ _ _ _ Hpre) as Hcommitted.
      destruct (claimGrants_wallet_present p g post w1) as (w' & Hg & Hc).
      * apply (quiet_drop (4 * length pre) 4 w); [|exact Hf1].
        replace (4 * length pre + 4) with (4 * S (length pre)) by lia.
        exact Hq.
      * intros Hin.
        destruct (claimGrants_adds_only _ _ _ _ _ _ _ Hpre Hin)
          as [Hold|(h & Hh & [[Hk Hid]|[Hk _]])].
        -- apply (Hfresh g); [|exact Hold].
           apply elem_of_app. right. left.
        -- apply grantsKey_inj in Hk.
           apply (Hdistinct h Hh); [symmetry; exact Hk|symmetry; exact Hid].
        -- exact (grantsKey_ne_walletsKey _ _ Hk).
      * apply list_elem_of_fmap in Hpromo as (h & Hk & Hh).
        destruct (Hcommitted h Hh) as [_ Hw].
        unfold walletsKey in *. rewrite Hk. exact Hw.
      * exists w'. split; [rewrite claimGrants_app, Hpre; exact Hg|].
        rewrite Hc. split.
        -- intros h Hh. apply elem_of_addTo.
           apply elem_of_app in Hh as [Hh|Hh].
           ++ right. apply (Hcommitted h Hh).
           ++ apply list_elem_of_singleton in Hh. subst h. left. done.
        -- intros h Hh. apply claimsIncluded_addTo.
           apply (Hcommitted h Hh).
Qed.

End SamePromotion.

(** Two grants of 150 BAT of one promotion against a transfer of 300 BAT
    from an empty wallet. *)
Lemma Verify_same_promotion_fails_witness :
  (exists e,
     fst (Verify (H := scenarioExternals false (New 0 0) (New 300 18)
                         "settlement")
            (scenarioGlobals None)
            (scenarioRequest ["grant-150a"; "grant-150b"]) freshWorld)
     = Err e) /\
  (exists w' : World nat,
     claimGrants "wallet-1"
       ([mkGrant BAT "g-150a" (New 150 18) "promo-2"]
        ++ mkGrant BAT "g-150b" (New 150 18) "promo-2" :: []) freshWorld
     = (Err (AlreadyRedeemedByWallet "wallet-1"), w') /\
     "g-150a" ∈ setOf (claims w') "promotion:promo-2:grants" /\
     "g-150b" ∈ setOf (claims w') "promotion:promo-2:grants" /\
     "wallet-1" ∈ setOf (claims w') "promotion:promo-2:wallets").
Proof.
  pose proof (Verify_same_promotion_fails (E := nat)
                (H := scenarioExternals false (New 0 0) (New 300 18)
                        "settlement")) as [Hverify Hloop].
  split.
  - apply (Hverify _ _ _ [mkGrant BAT "g-150a" (New 150 18) "promo-2";
                          mkGrant BAT "g-150b" (New 150 18) "promo-2"]).
    + vm_compute. reflexivity.
    + intros Hnd. apply NoDup_cons in Hnd as [Hnin _].
      apply Hnin. left.
  - destruct (Hloop "wallet-1"
                [mkGrant BAT "g-150a" (New 150 18) "promo-2"] []
                (mkGrant BAT "g-150b" (New 150 18) "promo-2") freshWorld)
      as (w' & Hrun & Hgrants & Hwallet).
    + constructor.
    + repeat constructor. intros Hin. inversion Hin.
    + left.
    + intros h Hh. vm_compute. intros Hin. discriminate Hin.
    + intros h Hh _.
      apply list_elem_of_singleton in Hh. subst h. discriminate.
    + intros h Hh. vm_compute. intros Hin. discriminate Hin.
    + exists w'. split; [exact Hrun|]. split; [|split].
      * apply (Hgrants (mkGrant BAT "g-150a" (New 150 18) "promo-2")).
        left.
      * apply (Hgrants (mkGrant BAT "g-150b" (New 150 18) "promo-2")).
        right. left.
      * apply (Hwallet (mkGrant BAT "g-150a" (New 150 18) "promo-2")).
        left.
Defined.

(** ** The policy checks *)

(** Run [Verify] up to its policy checks, given what decoding and the three
    provider calls before them return. *)
Ltac run_to_checks Hdec Hwallet Hbal Htx :=
  unfold Verify, bind, liftR, call, callRaw, fail, ret;
  rewrite Hdec, Hwallet; cbn [surface ext claims faults];
  rewrite Hbal; cbn [surface ext claims faults];
  rewrite Htx; cbn [surface ext claims faults].

Section PolicyChecks.
Context {E : Type} `{Externals E} `{SortImpl}.
Local Open Scope Q_scope.

Lemma selectGrants_errors (needed : Decimal) (gs : list Grant) (e : Error) :
  selectGrants needed gs = Err e -> e = ExcessGrants \/ e = UnsupportedAsset.
Proof.
  unfold selectGrants.
  destruct (sumGrants needed (sortGrants gs) (New 0 1)) as [t|e'] eqn:Hsum;
    [discriminate|].
  intros [= <-]. exact (sumGrants_errors _ _ _ _ Hsum).
Qed.

(** C6.  Once the grants are decoded, the wallet resolved, the balance
    read, and the transaction decoded as a BAT transaction of at least the
    minimum, [Verify] fails with [NoShortfall] if and only if the amount of
    the transaction is strictly below the spendable balance, whatever the
    grants; an amount equal to or above the balance passes this check. *)
Theorem Verify_NoShortfall_iff (gl : Globals) (req : RedeemGrantsRequest)
    (w : World E) (gs : list Grant) (uw : Wallet) (bal : Balance)
    (tx : TransactionInfo) (x1 x2 x3 : E) :
  decodeGrants gl (Grants req) [] = Ok gs ->
  provider_GetWallet (ReqWalletInfo req) (ext w) = (Ok uw, x1) ->
  GetBalance uw (refreshBalance gl) x1 = (Ok bal, x2) ->
  VerifyTransaction uw (Transaction req) x2 = (Ok tx, x3) ->
  TxAltCurrency tx = BAT ->
  toQ (BAT_ToProbi (New 20 1)) <= toQ (TxProbi tx) ->
  (fst (Verify gl req w) = Err NoShortfall <->
   toQ (TxProbi tx) < toQ (SpendableProbi bal)).
Proof.
  intros Hdec Hwallet Hbal Htx Hbat Hmin.
  apply LessThan_false in Hmin.
  run_to_checks Hdec Hwallet Hbal Htx.
  rewrite (bool_decide_eq_true_2 _ Hbat), Hmin. cbn [negb].
  rewrite <- LessThan_spec.
  destruct (LessThan (TxProbi tx) (SpendableProbi bal));
    [split; reflexivity|].
  split; [|discriminate]. intros Hres. exfalso. revert Hres.
  case_bool_decide; cbn [negb fst]; [|discriminate].
  cbn [ext claims faults].
  destruct (SubmitTransaction uw (Transaction req) x3) as [[ok|err] x4];
    cbn [fst]; [discriminate|].
  destruct (IsInvalidSignature err); cbn [fst]; [discriminate|].
  destruct (IsInsufficientBalance err); cbn [negb fst]; [|discriminate].
  destruct (selectGrants (Sub (TxProbi tx) (SpendableProbi bal)) gs)
    as [[sorted total]|e] eqn:Hsel.
  - destruct (claimGrants (ProviderId (ReqWalletInfo req)) sorted _)
      as [[u|e] w'] eqn:Hclaim; cbn [fst]; [discriminate|].
    apply claimGrants_errors in Hclaim
      as [[x ->]|[(h & _ & ->)| ->]]; discriminate.
  - cbn [fst]. apply selectGrants_errors in Hsel as [-> | ->]; discriminate.
Qed.

(** C7.  A request whose grants decode, whose wallet resolves and whose
    transaction decodes to a destination other than the settlement address
    fails in [Verify] without any call to the claim store: the store and
    the fate of the coming store calls are as before.  The failure is
    [WrongDestination] for a BAT transaction of at least the minimum and
    at least the balance. *)
Theorem Verify_WrongDestination (gl : Globals) (req : RedeemGrantsRequest)
    (w : World E) (gs : list Grant) (uw : Wallet) (bal : Balance)
    (tx : TransactionInfo) (x1 x2 x3 : E) :
  decodeGrants gl (Grants req) [] = Ok gs ->
  provider_GetWallet (ReqWalletInfo req) (ext w) = (Ok uw, x1) ->
  GetBalance uw (refreshBalance gl) x1 = (Ok bal, x2) ->
  VerifyTransaction uw (Transaction req) x2 = (Ok tx, x3) ->
  Destination tx <> SettlementDestination gl ->
  exists e w',
    Verify gl req w = (Err e, w') /\
    claims w' = claims w /\ faults w' = faults w /\
    (TxAltCurrency tx = BAT ->
     toQ (BAT_ToProbi (New 20 1)) <= toQ (TxProbi tx) ->
     toQ (SpendableProbi bal) <= toQ (TxProbi tx) ->
     e = WrongDestination).
Proof.
  intros Hdec Hwallet Hbal Htx Hdest.
  run_to_checks Hdec Hwallet Hbal Htx.
  rewrite (bool_decide_eq_false_2 _ Hdest). cbn [negb].
  case_bool_decide as Hbat; cbn [negb].
  2:{ eexists _, _. repeat split. intros Hb. contradiction. }
  destruct (LessThan (TxProbi tx) (BAT_ToProbi (New 20 1))) eqn:Hmin.
  { eexists _, _. repeat split. intros _ Hle.
    apply LessThan_false in Hle. congruence. }
  destruct (LessThan (TxProbi tx) (SpendableProbi bal)) eqn:Hshort.
  { eexists _, _. repeat split. intros _ _ Hle.
    apply LessThan_false in Hle. congruence. }
  eexists _, _. repeat split.
Qed.

End PolicyChecks.

(** A transfer of 250 BAT from a wallet holding 300 BAT. *)
Lemma Verify_NoShortfall_iff_witness :
  fst (Verify (H := scenarioExternals false (New 300 18) (New 250 18)
                      "settlement")
         (scenarioGlobals None) (scenarioRequest ["grant-250"]) freshWorld)
  = Err NoShortfall.
Proof.
  apply (Verify_NoShortfall_iff
           (H := scenarioExternals false (New 300 18) (New 250 18)
                   "settlement")
           (scenarioGlobals None) (scenarioRequest ["grant-250"]) freshWorld
           [mkGrant BAT "g-250" (New 250 18) "promo-1"]
           (mkWallet (mkWalletInfo "uphold" "wallet-1" BAT) [] [])
           (mkBalance (New 300 18))
           (mkTransactionInfo BAT (New 250 18) "settlement")
           1%nat 2%nat 3%nat);
    vm_compute; try reflexivity; discriminate.
Defined.

(** A transfer of 250 BAT to an address that is not the settlement
    address. *)
Lemma Verify_WrongDestination_witness :
  exists w' : World nat,
    Verify (H := scenarioExternals false (New 0 0) (New 250 18) "elsewhere")
      (scenarioGlobals None) (scenarioRequest ["grant-250"]) freshWorld
    = (Err WrongDestination, w') /\
    claims w' = claims freshWorld /\ faults w' = faults freshWorld.
Proof.
  destruct (Verify_WrongDestination
              (H := scenarioExternals false (New 0 0) (New 250 18)
                      "elsewhere")
              (scenarioGlobals None) (scenarioRequest ["grant-250"])
              freshWorld
              [mkGrant BAT "g-250" (New 250 18) "promo-1"]
              (mkWallet (mkWalletInfo "uphold" "wallet-1" BAT) [] [])
              (mkBalance (New 0 0))
              (mkTransactionInfo BAT (New 250 18) "elsewhere")
              1%nat 2%nat 3%nat)
    as (e & w' & Hrun & Hc & Hf & He);
    try (vm_compute; reflexivity).
  - discriminate.
  - exists w'. rewrite He in Hrun.
    + split; [exact Hrun|]. split; assumption.
    + reflexivity.
    + vm_compute. discriminate.
    + vm_compute. discriminate.
Defined.

(** ** [Redeem] *)

Section RedeemFacts.
Context {E : Type} `{Externals E} `{SortImpl}.

Lemma decodeGrants_length (gl : Globals) (tokens : list string) :
  forall acc gs,
    decodeGrants gl tokens acc = Ok gs ->
    length gs = length acc + length tokens.
Proof.
  induction tokens as [|t rest IH]; intros acc gs; simpl.
  - intros [= <-]. lia.
  - destruct (FromCompactJWS gl t) as [grant|e]; [|discriminate].
    intros Hrest. apply IH in Hrest. rewrite length_app in Hrest.
    simpl in Hrest. lia.
Qed.

(** C2.  [Redeem] runs [Verify] twice on the same request.  Whenever the
    first run succeeds on a request with at least one grant, the second
    run fails, the claims of the first run being in its way, and [Redeem]
    returns that failure. *)
Theorem Redeem_second_Verify_fails (gl : Globals) (req : RedeemGrantsRequest)
    (w w1 : World E) (tx : TransactionInfo) :
  Grants req <> [] ->
  Verify gl req w = (Ok tx, w1) ->
  exists e w2,
    Verify gl req w1 = (Err e, w2) /\
    Redeem gl req w = (Returned (Some e), w2).
Proof.
  intros Hne Hfirst.
  assert (Hsecond : exists e w2, Verify gl req w1 = (Err e, w2)).
  { pose proof Hfirst as Hinv.
    apply Verify_inv in Hinv
      as [([e He] & _)|(gs & bal & tx0 & sorted & total & wmid & rc & Hdec
                        & _ & _ & _ & _ & Hsel & _ & _ & Hclaim & Hr)];
      [discriminate He|].
    destruct rc as [u|e]; [|discriminate Hr].
    apply selectGrants_Ok_sorted in Hsel. subst sorted.
    destruct (sortGrants gs) as [|h t] eqn:Hsorted.
    { exfalso. apply Hne.
      apply decodeGrants_length in Hdec. simpl in Hdec.
      pose proof (Permutation_length (sortGrants_perm gs)) as Hlen.
      rewrite Hsorted in Hlen. simpl in Hlen.
      destruct (Grants req); [reflexivity|simpl in Hdec; lia]. }
    destruct (claimGrants_Ok_committed _ _ _ _ _ Hclaim h) as [Hh _];
      [left|].
    destruct (Verify gl req w1) as [r2 w2] eqn:Hrun. pose proof Hrun as Hinv.
    apply Verify_inv in Hinv
      as [([e He] & _)|(gs' & bal' & tx' & sorted' & total' & wmid' & rc'
                        & Hdec' & _ & _ & _ & _ & Hsel' & Hc' & _ & Hclaim'
                        & Hr')].
    - subst r2. eauto.
    - rewrite Hdec in Hdec'. injection Hdec' as <-.
      apply selectGrants_Ok_sorted in Hsel'. subst sorted'.
      rewrite Hsorted in Hclaim'.
      apply claimGrants_head_claimed in Hclaim' as [e ->];
        [|left; rewrite Hc'; exact Hh].
      subst r2. eauto. }
  destruct Hsecond as (e & w2 & Hsecond).
  exists e, w2. split; [exact Hsecond|].
  unfold Redeem. rewrite Hfirst, Hsecond. reflexivity.
Qed.

End RedeemFacts.

(** A transfer of 250 BAT from an empty wallet, with one unclaimed grant of
    250 BAT: the first [Verify] succeeds, and [Redeem] returns the failure
    of the second. *)
Lemma Redeem_second_Verify_fails_witness :
  exists w2 : World nat,
    Redeem (H := scenarioExternals false (New 0 0) (New 250 18) "settlement")
      (scenarioGlobals None) (scenarioRequest ["grant-250"]) freshWorld
    = (Returned (Some (AlreadyRedeemed "g-250")), w2).
Proof.
  destruct (Redeem_second_Verify_fails
              (H := scenarioExternals false (New 0 0) (New 250 18)
                      "settlement")
              (scenarioGlobals None) (scenarioRequest ["grant-250"])
              freshWorld
              (mkWorld 4%nat
                 (claimOne "wallet-1"
                    (mkGrant BAT "g-250" (New 250 18) "promo-1") ∅) [])
              (mkTransactionInfo BAT (Add (New 0 1) (New 250 18)) "wallet-1"))
    as (e & w2 & Hsecond & Hredeem).
  - discriminate.
  - vm_compute. reflexivity.
  - exists w2. rewrite Hredeem. f_equal. f_equal. f_equal.
    vm_compute in Hsecond. injection Hsecond as <- _. reflexivity.
Defined.

(** C10.  [Redeem] keeps the transaction info of its first [Verify] and the
    error of its second.  There is an execution, here one in which the
    provider fails the first call made to it and the custodial wallet is
    set, where the first [Verify] fails, the second succeeds, and [Redeem]
    panics on the nil transaction info instead of returning an error.
    Whenever the first [Verify] fails and [Redeem] gets as far as the
    transfer it panics; with the custodial wallet set and the first
    [Verify] successful it does not. *)
Theorem Redeem_nil_TransactionInfo :
  (isOk (fst (Verify (H := scenarioExternals true (New 0 0) (New 250 18)
                              "settlement")
                (scenarioGlobals (Some custodialWallet))
                (scenarioRequest ["grant-250"]) freshWorld)) = false /\
   isOk (fst (Verify (H := scenarioExternals true (New 0 0) (New 250 18)
                              "settlement")
                (scenarioGlobals (Some custodialWallet))
                (scenarioRequest ["grant-250"])
                (snd (Verify (H := scenarioExternals true (New 0 0)
                                     (New 250 18) "settlement")
                        (scenarioGlobals (Some custodialWallet))
                        (scenarioRequest ["grant-250"]) freshWorld))))
   = true /\
   fst (Redeem (H := scenarioExternals true (New 0 0) (New 250 18)
                       "settlement")
          (scenarioGlobals (Some custodialWallet))
          (scenarioRequest ["grant-250"]) freshWorld) = Panicked) /\
  (forall (E : Type) (ex : Externals E) (srt : SortImpl) (gl : Globals)
          (req : RedeemGrantsRequest) (w : World E),
     isOk (fst (Verify gl req w)) = false ->
     isOk (fst (Verify gl req (snd (Verify gl req w)))) = true ->
     isOk (fst (provider_GetWallet (ReqWalletInfo req)
                  (ext (snd (Verify gl req (snd (Verify gl req w)))))))
     = true ->
     fst (Redeem gl req w) = Panicked) /\
  (forall (E : Type) (ex : Externals E) (srt : SortImpl) (gl : Globals)
          (req : RedeemGrantsRequest) (w : World E),
     grantWallet gl <> None ->
     isOk (fst (Verify gl req w)) = true ->
     fst (Redeem gl req w) <> Panicked).
Proof.
  split; [repeat split; vm_compute; reflexivity|]. split.
  - intros E ex srt gl req w Hfirst Hsecond Hwallet. unfold Redeem.
    destruct (Verify gl req w) as [[t|e] w1]; [discriminate Hfirst|].
    cbn [snd] in *.
    destruct (Verify gl req w1) as [[t2|e2] w2]; [|discriminate Hsecond].
    cbn [snd] in *. unfold call.
    destruct (provider_GetWallet (ReqWalletInfo req) (ext w2))
      as [[uw|e3] x]; [|discriminate Hwallet].
    cbn [surface]. destruct (grantWallet gl); reflexivity.
  - intros E ex srt gl req w Hcustodial Hfirst. unfold Redeem.
    destruct (Verify gl req w) as [[t|e] w1]; [|discriminate Hfirst].
    destruct (Verify gl req w1) as [[t2|e2] w2]; [|discriminate].
    unfold call.
    destruct (provider_GetWallet (ReqWalletInfo req) (ext w2))
      as [[uw|e3] x]; cbn [surface]; [|discriminate].
    destruct (grantWallet gl) as [custodial|]; [|contradiction].
    cbn [ext claims faults].
    destruct (Transfer custodial (TxAltCurrency t) (TxProbi t)
                (Destination t) x) as [[ok|e4] x']; cbn [surface];
      [|discriminate].
    cbn [ext claims faults].
    destruct (SubmitTransaction uw (Transaction req) x') as [[ok'|e5] x''];
      cbn [surface]; discriminate.
Qed.

(** The second part at the execution of the first. *)
Lemma Redeem_nil_TransactionInfo_witness :
  fst (Redeem (H := scenarioExternals true (New 0 0) (New 250 18)
                      "settlement")
         (scenarioGlobals (Some custodialWallet))
         (scenarioRequest ["grant-250"]) freshWorld) = Panicked.
Proof.
  apply (proj1 (proj2 Redeem_nil_TransactionInfo)); vm_compute; reflexivity.
Defined.

(** ** [InitGrantService] *)

(** C5, on the code.  [InitGrantService] never writes the package-level
    [grantWallet]: whatever it returns, the variable holds what it held
    before, so a process that starts with the zero value keeps a nil
    custodial wallet.  When it returns no error it has built a wallet with
    both keys decoded, in a variable of its own. *)
Theorem InitGrantService_leaves_grantWallet `{Externals E} (ENV : string)
    (gl : Globals) :
  grantWallet (snd (InitGrantService ENV gl)) = grantWallet gl /\
  (fst (InitGrantService ENV gl) = None ->
   exists local,
     initLocalWallet gl = Ok local /\
     PubKey local = hex_DecodeString (GrantWalletPublicKeyHex gl) /\
     PrivKey local = hex_DecodeString (GrantWalletPrivateKeyHex gl)).
Proof.
  unfold InitGrantService, initLocalWallet.
  cbn [GrantWalletCardId GrantWalletPublicKeyHex GrantWalletPrivateKeyHex
       refreshBalance].
  destruct (bool_decide (ENV = "production") && negb (refreshBalance gl)).
  - split; [reflexivity|discriminate].
  - destruct (uphold_FromWalletInfo _) as [local|err].
    + split; [reflexivity|]. intros _. eexists. repeat split.
    + split; [reflexivity|discriminate].
Qed.

(** A production start with well-formed keys and no wallet set before. *)
Lemma InitGrantService_leaves_grantWallet_witness :
  fst (InitGrantService (H := scenarioExternals false (New 0 0) (New 0 0) "")
         "production" (scenarioGlobals None)) = None /\
  grantWallet
    (snd (InitGrantService
            (H := scenarioExternals false (New 0 0) (New 0 0) "")
            "production" (scenarioGlobals None))) = None /\
  exists local,
    initLocalWallet (H := scenarioExternals false (New 0 0) (New 0 0) "")
      (scenarioGlobals None) = Ok local /\
    PubKey local = [10%Z; 11%Z] /\ PrivKey local = [12%Z; 13%Z].
Proof.
  destruct (InitGrantService_leaves_grantWallet
              (H := scenarioExternals false (New 0 0) (New 0 0) "")
              "production" (scenarioGlobals None)) as [Hsame Hlocal].
  split; [reflexivity|]. split; [exact Hsame|].
  destruct Hlocal as (local & Hinit & Hpub & Hpriv); [reflexivity|].
  exists local. split; [exact Hinit|]. split; assumption.
Defined.

(** ** The minimum amount *)

(** C4, on the code.  The amount the transaction is compared with is
    [decimal.New(20, 1)], that is 200, converted to probi: 200 BAT, whatever
    the number of decimal places of the asset.  A transaction of 25 BAT is
    below it, and in the scenario of the claim (balance 0, a transaction of
    25 BAT, one grant of 25 BAT) [Verify] fails with the error whose text
    speaks of a minimum of 20 BAT. *)
Theorem Verify_minimum_is_200_BAT :
  (forall (E : Type) (ex : Externals E),
     (toQ (BAT_ToProbi (New 20 1)) == toQ (BAT_ToProbi (New 200 0)))%Q /\
     (toQ (BAT_ToProbi (New 25 0)) < toQ (BAT_ToProbi (New 20 1)))%Q) /\
  fst (Verify (H := scenarioExternals false (New 0 0) (New 25 18)
                      "settlement")
         (scenarioGlobals None) (scenarioRequest ["grant-25"]) freshWorld)
  = Err BelowMinimum /\
  Error_text BelowMinimum
  = "Included transactions must be for a minimum of 20 BAT".
Proof.
  split; [|split; vm_compute; reflexivity].
  intros E ex. unfold BAT_ToProbi. rewrite !toQ_Mul.
  pose proof (ten_pow_pos batDecimals) as Hpos.
  assert (H20 : (toQ (New 20 1) == 200)%Q) by reflexivity.
  assert (H200 : (toQ (New 200 0) == 200)%Q) by reflexivity.
  assert (H25 : (toQ (New 25 0) == 25)%Q) by reflexivity.
  assert (H1 : (toQ (New 1 batDecimals) == (10 # 1) ^ batDecimals)%Q).
  { unfold toQ, New. cbn [value exp]. ring. }
  rewrite H20, H200, H25, H1. split; [reflexivity|]. nra.
Qed.

(** ** The total [Verify] returns, and the scenarios of the specification *)

Section VerifyTotal.
Context {E : Type} `{Externals E} `{SortImpl}.

(** A successful [Verify] returns the sum of the probi of all the grants of
    the request, in BAT, for the wallet of the request. *)
Lemma Verify_Ok_total (gl : Globals) (req : RedeemGrantsRequest)
    (w w' : World E) (tx : TransactionInfo) :
  Verify gl req w = (Ok tx, w') ->
  exists gs,
    decodeGrants gl (Grants req) [] = Ok gs /\
    Forall inBAT gs /\
    (toQ (TxProbi tx) == sumProbiQ gs)%Q /\
    TxAltCurrency tx = BAT /\
    Destination tx = ProviderId (ReqWalletInfo req).
Proof.
  intros Hrun. apply Verify_inv in Hrun
    as [([e He] & _)|(gs & bal & tx0 & sorted & total & wmid & rc & Hdec & _
                      & _ & _ & _ & Hsel & _ & _ & _ & Hr)];
    [discriminate He|].
  destruct rc as [u|e]; [|discriminate Hr]. injection Hr as ->.
  exists gs. split; [exact Hdec|].
  unfold selectGrants in Hsel.
  destruct (sumGrants _ (sortGrants gs) (New 0 1)) as [t|e] eqn:Hsum;
    [|discriminate Hsel].
  injection Hsel as _ <-.
  apply sumGrants_Ok_inv in Hsum as [Hbat Hq].
  split; [eapply Permutation_Forall; [apply sortGrants_perm|exact Hbat]|].
  split; [|split; reflexivity].
  cbn [TxProbi]. rewrite Hq, toQ_zero, Qplus_0_l.
  apply sumProbiQ_perm, sortGrants_perm.
Qed.

End VerifyTotal.

Example decimal_New_20_1 : (toQ (New 20 1) == 200)%Q.
Proof. reflexivity. Qed.

Example hex_DecodeString_stops_at_bad_character :
  hex_DecodeString "0aFFzz10" = [10%Z; 255%Z].
Proof. reflexivity. Qed.

(** Grants of 15, 15 and 5 against a shortfall of 25: the third grant is
    reached with 30 already summed. *)
Example selectGrants_15_15_5 :
  selectGrants (New 25 0)
    [mkGrant BAT "g1" (New 15 0) "p1"; mkGrant BAT "g2" (New 15 0) "p2";
     mkGrant BAT "g3" (New 5 0) "p3"]
  = Err ExcessGrants.
Proof. vm_compute. reflexivity. Qed.

(** The smaller grant supplied first: the order of the sort is by probi. *)
Example sortGrants_5_15 :
  sortGrants [mkGrant BAT "g3" (New 5 0) "p3"; mkGrant BAT "g1" (New 15 0) "p1"]
  = [mkGrant BAT "g1" (New 15 0) "p1"; mkGrant BAT "g3" (New 5 0) "p3"].
Proof. vm_compute. reflexivity. Qed.

(** A transfer of 250 BAT from an empty wallet with one unclaimed grant of
    250 BAT passes [Verify]: both claims are made and the total is 250
    BAT. *)
Example Verify_250_BAT :
  Verify (H := scenarioExternals false (New 0 0) (New 250 18) "settlement")
    (scenarioGlobals None) (scenarioRequest ["grant-250"]) freshWorld
  = (Ok (mkTransactionInfo BAT (Add (New 0 1) (New 250 18)) "wallet-1"),
     mkWorld 4%nat
       (claimOne "wallet-1" (mkGrant BAT "g-250" (New 250 18) "promo-1") ∅)
       []).
Proof. vm_compute. reflexivity. Qed.

(** Two grants of one promotion: the second wallet claim is refused, and
    both grants are spent. *)
Example Verify_two_grants_one_promotion :
  Verify (H := scenarioExternals false (New 0 0) (New 300 18) "settlement")
    (scenarioGlobals None) (scenarioRequest ["grant-150a"; "grant-150b"])
    freshWorld
  = (Err (AlreadyRedeemedByWallet "wallet-1"),
     mkWorld 4%nat
       (addTo (claimOne "wallet-1"
                 (mkGrant BAT "g-150a" (New 150 18) "promo-2") ∅)
              "promotion:promo-2:grants" "g-150b")
       []).
Proof. vm_compute. reflexivity. Qed.

(** The set of the claim store behaves as the tests of the set package
    expect: a first [Add] succeeds, a second [Add] of the same element is
    refused, and both elements added are in the set. *)
Example SetDatastore_Add_as_tested :
  let '(r1, w1) := SetDatastore_Add "set" "FOO" freshWorld in
  let '(r2, w2) := SetDatastore_Add "set" "FOO" w1 in
  let '(r3, w3) := SetDatastore_Add "set" "BAR" w2 in
  r1 = Ok true /\ r2 = Ok false /\ r3 = Ok true /\
  "FOO" ∈ setOf (claims w3) "set" /\ "BAR" ∈ setOf (claims w3) "set" /\
  size (setOf (claims w3) "set") = 2%nat.
Proof. vm_compute. repeat split. Qed.
(** * Further properties of the package *)

(** ** Decoding the tokens *)

Section Decoding.
Context {E : Type} `{Externals E}.

Lemma decodeGrants_Ok_iff (gl : Globals) (tokens : list string) :
  forall acc gs,
    decodeGrants gl tokens acc = Ok gs <->
    exists new,
      gs = acc ++ new /\
      Forall2 (fun t grant => FromCompactJWS gl t = Ok grant) tokens new.
Proof.
  induction tokens as [|t rest IH]; intros acc gs; simpl.
  - split.
    + intros [= <-]. exists []. rewrite app_nil_r. split; constructor.
    + intros (new & -> & Hall). inversion Hall. rewrite app_nil_r. done.
  - destruct (FromCompactJWS gl t) as [grant|e] eqn:Ht.
    + rewrite IH. split.
      * intros (new & -> & Hall). exists (grant :: new).
        rewrite <- app_assoc. split; [reflexivity|]. constructor; done.
      * intros (new & -> & Hall).
        inversion Hall as [|? g' ? new' Hg Hrest]; subst.
        rewrite Ht in Hg. injection Hg as <-.
        exists new'. rewrite <- app_assoc. split; done.
    + split; [discriminate|]. intros (new & _ & Hall).
      inversion Hall as [|? g' ? new' Hg Hrest]; subst. congruence.
Qed.

Lemma decodeGrants_Err_iff (gl : Globals) (tokens : list string) (e : Error) :
  forall acc,
    decodeGrants gl tokens acc = Err e <->
    exists pre t post,
      tokens = pre ++ t :: post /\
      Forall (fun t' => isOk (FromCompactJWS gl t') = true) pre /\
      FromCompactJWS gl t = Err e.
Proof.
  induction tokens as [|t rest IH]; intros acc; simpl.
  - split; [discriminate|]. intros (pre & t & post & Hs & _).
    destruct pre; discriminate Hs.
  - destruct (FromCompactJWS gl t) as [grant|e'] eqn:Ht.
    + rewrite IH. split.
      * intros (pre & t' & post & -> & Hpre & Herr).
        exists (t :: pre), t', post. split; [reflexivity|].
        split; [|exact Herr]. constructor; [rewrite Ht; reflexivity|done].
      * intros (pre & t' & post & Hs & Hpre & Herr).
        destruct pre as [|t0 pre]; simplify_eq/=; [congruence|].
        inversion Hpre; subst. exists pre, t', post. done.
    + split.
      * intros [= ->]. exists [], t, rest. split; [reflexivity|].
        split; [constructor|exact Ht].
      * intros (pre & t' & post & Hs & Hpre & Herr).
        destruct pre as [|t0 pre]; simplify_eq/=; [congruence|].
        inversion Hpre as [|? ? Hok _]; subst. rewrite Ht in Hok.
        discriminate Hok.
Qed.

Lemma forallb_false_elem {A : Type} (f : A -> bool) (l : list A) :
  forallb f l = false -> exists x, x ∈ l /\ f x = false.
Proof.
  induction l as [|a l IH]; simpl; [discriminate|].
  destruct (f a) eqn:Ha; simpl.
  - intros Hl. destruct (IH Hl) as (x & Hx & Hfx).
    exists x. split; [right; exact Hx|exact Hfx].
  - intros _. exists a. split; [left|exact Ha].
Qed.

(** X1.  Step 1 of [Verify] decodes the tokens in request order: it
    succeeds exactly when every token decodes, and then yields the grants
    position by position; it fails exactly with the failure of the first
    token that does not decode, the tokens before it all decoding. *)
Theorem decodeGrants_in_order (gl : Globals) (tokens : list string) :
  (forall gs,
     decodeGrants gl tokens [] = Ok gs <->
     Forall2 (fun t grant => FromCompactJWS gl t = Ok grant) tokens gs) /\
  (forall e,
     decodeGrants gl tokens [] = Err e <->
     exists pre t post,
       tokens = pre ++ t :: post /\
       Forall (fun t' => isOk (FromCompactJWS gl t') = true) pre /\
       FromCompactJWS gl t = Err e).
Proof.
  split.
  - intros gs. rewrite decodeGrants_Ok_iff. simpl. split.
    + intros (new & -> & Hall). exact Hall.
    + intros Hall. exists gs. done.
  - intros e. apply decodeGrants_Err_iff.
Qed.

(** X2.  [FromCompactJWS] refuses a token with [UnsupportedAlgorithm]
    exactly when the token parses and one of its signatures declares an
    algorithm other than ed25519, whatever the verification key and
    whatever the other signatures; it yields a grant exactly when the token
    parses, every signature declares ed25519, the signature verifies under
    [grantPublicKey] and the payload deserialises to that grant. *)
Theorem FromCompactJWS_cases (gl : Globals) (s : string) :
  (FromCompactJWS gl s = Err UnsupportedAlgorithm <->
   exists jws alg,
     jose_ParseSigned s = Ok jws /\ alg ∈ Signatures jws /\
     alg <> "ed25519") /\
  (forall grant,
     FromCompactJWS gl s = Ok grant <->
     exists jws grantBytes,
       jose_ParseSigned s = Ok jws /\
       Forall (fun alg => alg = "ed25519") (Signatures jws) /\
       jws_Verify jws (grantPublicKey gl) = Ok grantBytes /\
       json_Unmarshal grantBytes = Ok grant).
Proof.
  unfold FromCompactJWS.
  destruct (jose_ParseSigned s) as [jws|e0].
  2:{ split; [|intros grant]; (split; [discriminate|]).
      - intros (? & ? & [=] & _).
      - intros (? & ? & [=] & _). }
  destruct (forallb (fun alg => bool_decide (alg = "ed25519"))
              (Signatures jws)) eqn:Hall.
  - rewrite forallb_forall in Hall.
    assert (Hall' : Forall (fun alg => alg = "ed25519") (Signatures jws)).
    { apply Forall_forall. intros alg Hin.
      apply list_elem_of_In, Hall in Hin.
      apply bool_decide_eq_true in Hin. exact Hin. }
    split.
    + split.
      * destruct (jws_Verify jws (grantPublicKey gl)) as [b|e1];
          [|discriminate].
        destruct (json_Unmarshal b); discriminate.
      * intros (jws' & alg & Hp & Hin & Hne). simplify_eq.
        rewrite Forall_forall in Hall'. destruct (Hne (Hall' alg Hin)).
    + intros grant.
      destruct (jws_Verify jws (grantPublicKey gl)) as [b|e1] eqn:Hver.
      * destruct (json_Unmarshal b) as [g0|e2] eqn:Hjson; simpl; split.
        -- intros [= <-]. exists jws, b. done.
        -- intros (jws' & b' & Hp & _ & Hv & Hj). congruence.
        -- discriminate.
        -- intros (jws' & b' & Hp & _ & Hv & Hj). congruence.
      * split; [discriminate|].
        intros (jws' & b' & Hp & _ & Hv & _). congruence.
  - apply forallb_false_elem in Hall as (alg & Hin & Halg).
    apply bool_decide_eq_false in Halg.
    split.
    + split; [intros _|reflexivity]. exists jws, alg. done.
    + intros grant. split; [discriminate|].
      intros (jws' & b' & Hp & Hsigs & _). simplify_eq.
      rewrite Forall_forall in Hsigs. destruct (Halg (Hsigs alg Hin)).
Qed.

End Decoding.

(** ** What [Verify] guarantees about the claim store *)

Section ClaimMembers.
Context {E : Type}.

(** A grant of the list whose own claim, or whose wallet claim, is in the
    store already stops the loop, wherever in the list it is. *)
Lemma claimGrants_member_claimed (p : string) (l : list Grant) (h : Grant)
    (w w' : World E) (r : result Error unit) :
  h ∈ l ->
  GrantId h ∈ setOf (claims w) (grantsKey h) \/
  p ∈ setOf (claims w) (walletsKey h) ->
  claimGrants p l w = (r, w') ->
  exists e, r = Err e.
Proof.
  intros Hh Hin. apply list_elem_of_split in Hh as (l1 & l2 & ->).
  rewrite claimGrants_app.
  destruct (claimGrants p l1 w) as [[u|e] w1] eqn:Hpre.
  - apply claimGrants_grows in Hpre as [_ Hinc].
    apply claimGrants_head_claimed.
    destruct Hin as [Hin|Hin]; [left|right]; apply Hinc, Hin.
  - intros [= <- <-]. eauto.
Qed.

End ClaimMembers.

Section VerifyGuarantees.
Context {E : Type} `{Externals E} `{SortImpl}.

Lemma elem_of_sortGrants (gs : list Grant) (h : Grant) :
  h ∈ sortGrants gs <-> h ∈ gs.
Proof. rewrite (sortGrants_perm gs). reflexivity. Qed.

(** A successful [Verify] found every grant of the request unclaimed and
    the wallet new to every promotion involved, and left them all
    claimed. *)
Lemma Verify_Ok_claims (gl : Globals) (req : RedeemGrantsRequest)
    (w w' : World E) (tx : TransactionInfo) :
  Verify gl req w = (Ok tx, w') ->
  exists gs,
    decodeGrants gl (Grants req) [] = Ok gs /\
    forall h, h ∈ gs ->
      (GrantId h ∉ setOf (claims w) (grantsKey h)) /\
      (ProviderId (ReqWalletInfo req) ∉ setOf (claims w) (walletsKey h)) /\
      GrantId h ∈ setOf (claims w') (grantsKey h) /\
      ProviderId (ReqWalletInfo req) ∈ setOf (claims w') (walletsKey h).
Proof.
  intros Hrun.
  apply Verify_inv in Hrun
    as [([e He] & _)|(gs & bal & tx0 & sorted & total & wmid & rc & Hdec
                      & _ & _ & _ & _ & Hsel & Hc & _ & Hclaim & Hr)];
    [discriminate He|].
  destruct rc as [u|e]; [|discriminate Hr].
  apply selectGrants_Ok_sorted in Hsel. subst sorted.
  exists gs. split; [exact Hdec|].
  intros h Hh. apply (proj2 (elem_of_sortGrants _ _)) in Hh.
  destruct (claimGrants_Ok_committed _ _ _ _ _ Hclaim h Hh) as [Hg Hw].
  rewrite <- Hc.
  repeat split; try assumption.
  - intros Hin.
    destruct (claimGrants_member_claimed _ _ h _ _ _ Hh (or_introl Hin) Hclaim)
      as [e He]. discriminate He.
  - intros Hin.
    destruct (claimGrants_member_claimed _ _ h _ _ _ Hh (or_intror Hin) Hclaim)
      as [e He]. discriminate He.
Qed.

(** A request with a grant whose claim, or whose wallet claim, is in the
    store cannot pass [Verify]. *)
Lemma Verify_member_claimed (gl : Globals) (req : RedeemGrantsRequest)
    (w : World E) (gs : list Grant) (h : Grant) :
  decodeGrants gl (Grants req) [] = Ok gs ->
  h ∈ gs ->
  GrantId h ∈ setOf (claims w) (grantsKey h) \/
  ProviderId (ReqWalletInfo req) ∈ setOf (claims w) (walletsKey h) ->
  exists e, fst (Verify gl req w) = Err e.
Proof.
  intros Hdec Hh Hclaimed.
  destruct (Verify gl req w) as [r w'] eqn:Hrun. cbn [fst].
  apply Verify_inv in Hrun
    as [(He & _)|(gs' & bal' & tx' & sorted' & total' & wmid' & rc' & Hdec'
                  & _ & _ & _ & _ & Hsel' & Hc' & _ & Hclaim' & ->)];
    [exact He|].
  rewrite Hdec in Hdec'. injection Hdec' as <-.
  apply selectGrants_Ok_sorted in Hsel'. subst sorted'.
  rewrite <- Hc' in Hclaimed. apply (proj2 (elem_of_sortGrants _ _)) in Hh.
  destruct (claimGrants_member_claimed _ _ h _ _ _ Hh Hclaimed Hclaim')
    as [e ->].
  eauto.
Qed.

(** X3.  What a successful [Verify] means.  Every token of the request
    decoded to a grant in BAT; before the call none of these grants was in
    the set of grants of its promotion and the wallet was in none of the
    sets of wallets of their promotions; after the call all of them are.
    The result is in BAT, for the wallet's account id, and its amount is the
    sum of the probi of all the grants. *)
Theorem Verify_Ok_post (gl : Globals) (req : RedeemGrantsRequest)
    (w w' : World E) (tx : TransactionInfo) :
  Verify gl req w = (Ok tx, w') ->
  exists gs,
    decodeGrants gl (Grants req) [] = Ok gs /\
    Forall inBAT gs /\
    (forall h, h ∈ gs ->
       (GrantId h ∉ setOf (claims w) (grantsKey h)) /\
       (ProviderId (ReqWalletInfo req) ∉ setOf (claims w) (walletsKey h)) /\
       GrantId h ∈ setOf (claims w') (grantsKey h) /\
       ProviderId (ReqWalletInfo req) ∈ setOf (claims w') (walletsKey h)) /\
    TxAltCurrency tx = BAT /\
    Destination tx = ProviderId (ReqWalletInfo req) /\
    (toQ (TxProbi tx) == sumProbiQ gs)%Q.
Proof.
  intros Hrun.
  destruct (Verify_Ok_total _ _ _ _ _ Hrun)
    as (gs & Hdec & Hbat & Hq & Hcur & Hdest).
  destruct (Verify_Ok_claims _ _ _ _ _ Hrun) as (gs0 & Hdec0 & Hclaims).
  rewrite Hdec in Hdec0. injection Hdec0 as <-.
  exists gs. repeat split; try assumption; apply (Hclaims h); assumption.
Qed.

(** X4.  No double redemption.  Of two successful calls of [Verify], the
    second made when the store still holds the claims of the first, no
    grant of the second is a grant of the first (same promotion and same
    grant id), and if the two requests have a promotion in common they are
    from different wallets. *)
Theorem Verify_no_double_redemption (gl gl' : Globals)
    (req req' : RedeemGrantsRequest) (w w1 w2 w3 : World E)
    (tx tx' : TransactionInfo) (gs gs' : list Grant) :
  Verify gl req w = (Ok tx, w1) ->
  claimsIncluded (claims w1) (claims w2) ->
  Verify gl' req' w2 = (Ok tx', w3) ->
  decodeGrants gl (Grants req) [] = Ok gs ->
  decodeGrants gl' (Grants req') [] = Ok gs' ->
  forall h h',
    h ∈ gs -> h' ∈ gs' -> PromotionId h = PromotionId h' ->
    GrantId h <> GrantId h' /\
    ProviderId (ReqWalletInfo req) <> ProviderId (ReqWalletInfo req').
Proof.
  intros Hfirst Hinc Hsecond Hdec Hdec' h h' Hh Hh' Hpromo.
  apply Verify_Ok_claims in Hfirst as (gs0 & Hdec0 & Hpost).
  apply Verify_Ok_claims in Hsecond as (gs0' & Hdec0' & Hpost').
  rewrite Hdec in Hdec0. injection Hdec0 as <-.
  rewrite Hdec' in Hdec0'. injection Hdec0' as <-.
  destruct (Hpost h Hh) as (_ & _ & Hg & Hw).
  destruct (Hpost' h' Hh') as (Hg' & Hw' & _ & _).
  assert (Hgk : grantsKey h = grantsKey h')
    by (unfold grantsKey; rewrite Hpromo; reflexivity).
  assert (Hwk : walletsKey h = walletsKey h')
    by (unfold walletsKey; rewrite Hpromo; reflexivity).
  split.
  - intros Hid. apply Hg'. rewrite <- Hid, <- Hgk. apply Hinc, Hg.
  - intros Hid. apply Hw'. rewrite <- Hid, <- Hwk. apply Hinc, Hw.
Qed.

(** X5.  No retry.  Once a call of [Verify] has put anything into the claim
    store, whether it went on to succeed or failed on a later grant, the
    same request fails in every later call, for as long as the store holds
    those claims. *)
Theorem Verify_no_retry (gl : Globals) (req : RedeemGrantsRequest)
    (w w1 w2 : World E) (r : result Error TransactionInfo) :
  Verify gl req w = (r, w1) ->
  (exists k x, x ∈ setOf (claims w1) k /\ x ∉ setOf (claims w) k) ->
  claimsIncluded (claims w1) (claims w2) ->
  exists e, fst (Verify gl req w2) = Err e.
Proof.
  intros Hfirst (k & x & Hnew & Hold) Hinc.
  apply Verify_inv in Hfirst
    as [(_ & Hc & _)|(gs & bal & tx0 & sorted & total & wmid & rc & Hdec
                      & _ & _ & _ & _ & Hsel & Hc & _ & Hclaim & _)].
  { rewrite Hc in Hnew. contradiction. }
  apply selectGrants_Ok_sorted in Hsel. subst sorted.
  destruct (claimGrants_adds_only _ _ _ _ _ _ _ Hclaim Hnew)
    as [Hin|(h & Hh & Hk)]; [rewrite Hc in Hin; contradiction|].
  assert (Hclaimed :
    GrantId h ∈ setOf (claims w2) (grantsKey h) \/
    ProviderId (ReqWalletInfo req) ∈ setOf (claims w2) (walletsKey h)).
  { destruct Hk as [[-> ->]|[-> ->]]; [left|right]; apply Hinc, Hnew. }
  apply (proj1 (elem_of_sortGrants _ _)) in Hh.
  exact (Verify_member_claimed _ _ _ _ _ Hdec Hh Hclaimed).
Qed.

(** X6.  [Verify] writes nothing to the claim store but the claims of its
    own request: every element found in a set after the call was there
    before, or is the id of a grant of the request in the set of grants of
    that grant's promotion, or the wallet's account id in the set of
    wallets of the promotion of a grant of the request. *)
Theorem Verify_adds_only (gl : Globals) (req : RedeemGrantsRequest)
    (w w' : World E) (r : result Error TransactionInfo) (k x : string) :
  Verify gl req w = (r, w') ->
  x ∈ setOf (claims w') k ->
  x ∈ setOf (claims w) k \/
  exists gs h,
    decodeGrants gl (Grants req) [] = Ok gs /\ h ∈ gs /\
    ((k = grantsKey h /\ x = GrantId h) \/
     (k = walletsKey h /\ x = ProviderId (ReqWalletInfo req))).
Proof.
  intros Hrun Hx.
  apply Verify_inv in Hrun
    as [(_ & Hc & _)|(gs & bal & tx0 & sorted & total & wmid & rc & Hdec
                      & _ & _ & _ & _ & Hsel & Hc & _ & Hclaim & _)].
  { left. rewrite <- Hc. exact Hx. }
  apply selectGrants_Ok_sorted in Hsel. subst sorted.
  destruct (claimGrants_adds_only _ _ _ _ _ _ _ Hclaim Hx)
    as [Hin|(h & Hh & Hk)].
  - left. rewrite <- Hc. exact Hin.
  - right. exists gs, h. split; [exact Hdec|].
    split; [apply elem_of_sortGrants, Hh|exact Hk].
Qed.

(** X7.  A failure raised by the token check, by a policy check or by the
    selection comes before any call to the claim store: the store and the
    fate of the coming store calls are as they were. *)
Theorem Verify_checks_leave_store (gl : Globals) (req : RedeemGrantsRequest)
    (w w' : World E) (e : Error) :
  Verify gl req w = (Err e, w') ->
  raisedByChecks e = true ->
  claims w' = claims w /\ faults w' = faults w.
Proof.
  intros Hrun He.
  apply Verify_inv in Hrun
    as [(_ & Hc & Hf)|(gs & bal & tx0 & sorted & total & wmid & rc & _
                       & _ & _ & _ & _ & _ & _ & _ & Hclaim & Hr)];
    [split; assumption|].
  destruct rc as [u|e']; [discriminate Hr|]. injection Hr as ->.
  apply claimGrants_errors in Hclaim
    as [[x ->]|[(h & _ & ->)| ->]]; discriminate He.
Qed.

End VerifyGuarantees.

(** One unclaimed grant of 250 BAT for a transfer of 250 BAT from an empty
    wallet. *)
Lemma Verify_Ok_post_witness :
  exists gs,
    decodeGrants (H := scenarioExternals false (New 0 0) (New 250 18)
                         "settlement")
      (scenarioGlobals None) ["grant-250"] [] = Ok gs /\
    Forall inBAT gs /\ (sumProbiQ gs == 250 * 10 ^ 18)%Q.
Proof.
  destruct (Verify_Ok_post
              (H := scenarioExternals false (New 0 0) (New 250 18)
                      "settlement")
              (scenarioGlobals None) (scenarioRequest ["grant-250"])
              freshWorld
              (mkWorld 4%nat
                 (claimOne "wallet-1"
                    (mkGrant BAT "g-250" (New 250 18) "promo-1") ∅) [])
              (mkTransactionInfo BAT (Add (New 0 1) (New 250 18)) "wallet-1"))
    as (gs & Hdec & Hbat & _ & _ & _ & Hq).
  - vm_compute. reflexivity.
  - exists gs. split; [exact Hdec|]. split; [exact Hbat|].
    rewrite <- Hq. vm_compute. reflexivity.
Defined.

(** After wallet-1 redeemed the grant of 250 BAT of promo-1, wallet-2
    redeems the grant of 25 BAT of the same promotion. *)
Lemma Verify_no_double_redemption_witness :
  GrantId (mkGrant BAT "g-250" (New 250 18) "promo-1")
  <> GrantId (mkGrant BAT "g-25" (New 25 18) "promo-1") /\
  ProviderId (ReqWalletInfo (scenarioRequestOf "wallet-1" ["grant-250"]))
  <> ProviderId (ReqWalletInfo (scenarioRequestOf "wallet-2" ["grant-25"])).
Proof.
  apply (Verify_no_double_redemption
           (H := scenarioExternals false (New 0 0) (New 250 18) "settlement")
           (scenarioGlobals None) (scenarioGlobals None)
           (scenarioRequestOf "wallet-1" ["grant-250"])
           (scenarioRequestOf "wallet-2" ["grant-25"])
           freshWorld
           (mkWorld 4%nat
              (claimOne "wallet-1"
                 (mkGrant BAT "g-250" (New 250 18) "promo-1") ∅) [])
           (mkWorld 4%nat
              (claimOne "wallet-1"
                 (mkGrant BAT "g-250" (New 250 18) "promo-1") ∅) [])
           (mkWorld 8%nat
              (claimOne "wallet-2"
                 (mkGrant BAT "g-25" (New 25 18) "promo-1")
                 (claimOne "wallet-1"
                    (mkGrant BAT "g-250" (New 250 18) "promo-1") ∅)) [])
           (mkTransactionInfo BAT (Add (New 0 1) (New 250 18)) "wallet-1")
           (mkTransactionInfo BAT (Add (New 0 1) (New 25 18)) "wallet-2")
           [mkGrant BAT "g-250" (New 250 18) "promo-1"]
           [mkGrant BAT "g-25" (New 25 18) "promo-1"]).
  - vm_compute. reflexivity.
  - apply claimsIncluded_refl.
  - vm_compute. reflexivity.
  - vm_compute. reflexivity.
  - vm_compute. reflexivity.
  - left.
  - left.
  - reflexivity.
Defined.

(** Two grants of one promotion: the call fails at the second grant with
    the first one claimed, and the request fails again when retried. *)
Lemma Verify_no_retry_witness :
  exists e,
    fst (Verify (H := scenarioExternals false (New 0 0) (New 300 18)
                        "settlement")
           (scenarioGlobals None)
           (scenarioRequest ["grant-150a"; "grant-150b"])
           (snd (Verify (H := scenarioExternals false (New 0 0) (New 300 18)
                               "settlement")
                   (scenarioGlobals None)
                   (scenarioRequest ["grant-150a"; "grant-150b"])
                   freshWorld)))
    = Err e.
Proof.
  eapply (Verify_no_retry
            (H := scenarioExternals false (New 0 0) (New 300 18) "settlement")
            (scenarioGlobals None)
            (scenarioRequest ["grant-150a"; "grant-150b"]) freshWorld).
  - apply surjective_pairing.
  - exists "promotion:promo-2:grants", "g-150a". split.
    + vm_compute. reflexivity.
    + vm_compute. discriminate.
  - apply claimsIncluded_refl.
Defined.

(** The grant id found in the store after the call is that of the grant
    of the request. *)
Lemma Verify_adds_only_witness :
  "g-250" ∈ setOf (claims freshWorld) "promotion:promo-1:grants" \/
  exists gs h,
    decodeGrants (H := scenarioExternals false (New 0 0) (New 250 18)
                         "settlement")
      (scenarioGlobals None) ["grant-250"] [] = Ok gs /\ h ∈ gs /\
    (("promotion:promo-1:grants" = grantsKey h /\ "g-250" = GrantId h) \/
     ("promotion:promo-1:grants" = walletsKey h /\ "g-250" = "wallet-1")).
Proof.
  eapply (Verify_adds_only
            (H := scenarioExternals false (New 0 0) (New 250 18) "settlement")
            (scenarioGlobals None) (scenarioRequest ["grant-250"])
            freshWorld).
  - apply surjective_pairing.
  - vm_compute. reflexivity.
Defined.

(** A transaction of 25 BAT is below the minimum: nothing is claimed. *)
Lemma Verify_checks_leave_store_witness :
  claims (snd (Verify (H := scenarioExternals false (New 0 0) (New 25 18)
                              "settlement")
                 (scenarioGlobals None) (scenarioRequest ["grant-25"])
                 freshWorld))
  = claims freshWorld.
Proof.
  apply (Verify_checks_leave_store
           (H := scenarioExternals false (New 0 0) (New 25 18) "settlement")
           (scenarioGlobals None) (scenarioRequest ["grant-25"]) freshWorld
           _ BelowMinimum).
  - vm_compute. reflexivity.
  - reflexivity.
Defined.

(** ** What [Redeem] does to a request with grants *)

Section RedeemGuarantees.
Context {E : Type} `{Externals E} `{SortImpl}.

(** X8.  [Redeem] cannot return without error for a request with at least
    one grant: either the second [Verify] fails (after a successful first
    one it always does), or a later step fails, or the call panics. *)
Theorem Redeem_never_succeeds_with_grants (gl : Globals)
    (req : RedeemGrantsRequest) (w : World E) :
  Grants req <> [] ->
  fst (Redeem gl req w) <> Returned None.
Proof.
  intros Hne. unfold Redeem.
  destruct (Verify gl req w) as [[t|e] w1] eqn:Hfirst.
  - destruct (Verify_Ok_claims _ _ _ _ _ Hfirst) as (gs & Hdec & Hclaims).
    destruct gs as [|h gs].
    { apply decodeGrants_length in Hdec. simpl in Hdec.
      destruct (Grants req); [contradiction|simpl in Hdec; lia]. }
    destruct (Hclaims h) as (_ & _ & Hg & _); [left|].
    destruct (Verify_member_claimed gl req w1 (h :: gs) h Hdec)
      as [e He]; [left|left; exact Hg|].
    destruct (Verify gl req w1) as [r2 w2]. cbn [fst] in He. subst r2.
    cbn [fst]. discriminate.
  - destruct (Verify gl req w1) as [[t2|e2] w2]; cbn [fst]; [|discriminate].
    unfold call.
    destruct (provider_GetWallet (ReqWalletInfo req) (ext w2))
      as [[uw|e3] x]; cbn [surface fst]; [|discriminate].
    destruct (grantWallet gl); cbn [fst]; discriminate.
Qed.

(** The store [Redeem] leaves is the one its second [Verify] left: the
    wallet lookup, the transfer and the submission after it do not touch
    the claims. *)
Lemma Redeem_store (gl : Globals) (req : RedeemGrantsRequest)
    (w w' : World E) (o : Outcome) :
  Redeem gl req w = (o, w') ->
  claims w' = claims (snd (Verify gl req (snd (Verify gl req w)))).
Proof.
  unfold Redeem.
  destruct (Verify gl req w) as [first w1] eqn:Hfirst. cbn [snd].
  destruct (Verify gl req w1) as [second w2] eqn:Hsecond. cbn [snd].
  destruct second as [t2|e2]; [|intros [= _ <-]; reflexivity].
  unfold call.
  destruct (provider_GetWallet (ReqWalletInfo req) (ext w2)) as [[uw|e3] x];
    cbn [surface ext claims faults]; [|intros [= _ <-]; reflexivity].
  destruct (grantWallet gl) as [custodial|]; [|intros [= _ <-]; reflexivity].
  destruct first as [t|e]; [|intros [= _ <-]; reflexivity].
  destruct (Transfer custodial (TxAltCurrency t) (TxProbi t) (Destination t) x)
    as [[ok|e4] x']; cbn [surface ext claims faults];
    [|intros [= _ <-]; reflexivity].
  destruct (SubmitTransaction uw (Transaction req) x') as [[ok'|e5] x''];
    cbn [surface]; intros [= _ <-]; reflexivity.
Qed.

(** X9.  [Redeem] never takes a claim out of the store, whatever it ends
    with (the failure of a [Verify], of the wallet lookup, of the transfer
    or of the final submission, or a panic): every claim present before
    the call is present after it; so is every claim in the store its first
    [Verify] left; the store it leaves is exactly the one its second
    [Verify] left; and when its first [Verify] succeeded, every grant of
    the request and the wallet's claim under each grant's promotion are in
    the store it leaves. *)
Theorem Redeem_keeps_claims (gl : Globals) (req : RedeemGrantsRequest)
    (w w' : World E) (o : Outcome) :
  Redeem gl req w = (o, w') ->
  claimsIncluded (claims w) (claims w') /\
  claimsIncluded (claims (snd (Verify gl req w))) (claims w') /\
  claims w' = claims (snd (Verify gl req (snd (Verify gl req w)))) /\
  (forall tx, fst (Verify gl req w) = Ok tx ->
     exists gs,
       decodeGrants gl (Grants req) [] = Ok gs /\
       claimedIn (ProviderId (ReqWalletInfo req)) gs (claims w')).
Proof.
  intros Hrun. apply Redeem_store in Hrun.
  destruct (Verify gl req w) as [first w1] eqn:Hfirst. cbn [snd fst] in *.
  destruct (Verify gl req w1) as [second w2] eqn:Hsecond. cbn [snd] in Hrun.
  pose proof (Verify_grows _ _ _ _ _ Hfirst) as Hinc1.
  pose proof (Verify_grows _ _ _ _ _ Hsecond) as Hinc2.
  rewrite Hrun.
  split; [eapply claimsIncluded_trans; eassumption|].
  split; [exact Hinc2|]. split; [reflexivity|].
  intros tx ->.
  destruct (Verify_Ok_claims _ _ _ _ _ Hfirst) as (gs & Hdec & Hgs).
  exists gs. split; [exact Hdec|].
  intros h Hh. destruct (Hgs h Hh) as (_ & _ & Hg & Hp).
  split; apply Hinc2; assumption.
Qed.

End RedeemGuarantees.

(** The fresh request with one grant of 250 BAT. *)
Lemma Redeem_never_succeeds_with_grants_witness :
  fst (Redeem (H := scenarioExternals false (New 0 0) (New 250 18)
                      "settlement")
         (scenarioGlobals (Some custodialWallet))
         (scenarioRequest ["grant-250"]) freshWorld) <> Returned None.
Proof.
  apply (Redeem_never_succeeds_with_grants
           (H := scenarioExternals false (New 0 0) (New 250 18) "settlement")).
  discriminate.
Defined.

(** A request for a fresh grant of 250 BAT, with a claim of an earlier
    request in the store: [Redeem] fails, since its second [Verify] finds
    the grant claimed by the first; the earlier claim and the claim its
    first [Verify] made are both in the store it leaves. *)
Lemma Redeem_keeps_claims_witness :
  "g-0" ∈ setOf
    (claims (snd (Redeem (H := scenarioExternals false (New 0 0) (New 250 18)
                                 "settlement")
                    (scenarioGlobals None) (scenarioRequest ["grant-250"])
                    (mkWorld 0%nat {["promotion:promo-1:grants" := {["g-0"]}]}
                             []))))
    "promotion:promo-1:grants" /\
  "g-250" ∈ setOf
    (claims (snd (Redeem (H := scenarioExternals false (New 0 0) (New 250 18)
                                 "settlement")
                    (scenarioGlobals None) (scenarioRequest ["grant-250"])
                    (mkWorld 0%nat {["promotion:promo-1:grants" := {["g-0"]}]}
                             []))))
    "promotion:promo-1:grants".
Proof.
  destruct (Redeem_keeps_claims
              (H := scenarioExternals false (New 0 0) (New 250 18)
                      "settlement")
              (scenarioGlobals None) (scenarioRequest ["grant-250"])
              (mkWorld 0%nat {["promotion:promo-1:grants" := {["g-0"]}]} [])
              _ _ (surjective_pairing _))
    as (Hbefore & Hfirst & _).
  split.
  - apply Hbefore. vm_compute. reflexivity.
  - apply Hfirst. vm_compute. reflexivity.
Defined.

(** ** The speculative submission *)

Section SpeculativeSubmission.
Context {E : Type} `{Externals E} `{SortImpl}.
Local Open Scope Q_scope.

(** X10.  With the policy checks passed, [Verify] submits the transaction
    and goes on to the grants only when the submission fails for lack of
    funds: its result is then that of the selection and of the claims.  A
    submission that goes through ends the call with [UnexpectedSuccess],
    one refused for its signature with [WrongPublicKey], one refused for
    any other reason with that very failure; in these three cases nothing
    is claimed. *)
Theorem Verify_speculative_submission (gl : Globals)
    (req : RedeemGrantsRequest) (w : World E) (gs : list Grant)
    (uw : Wallet) (bal : Balance) (tx : TransactionInfo) (x1 x2 x3 x4 : E)
    (submitted : result ExtError TransactionInfo) :
  decodeGrants gl (Grants req) [] = Ok gs ->
  provider_GetWallet (ReqWalletInfo req) (ext w) = (Ok uw, x1) ->
  GetBalance uw (refreshBalance gl) x1 = (Ok bal, x2) ->
  VerifyTransaction uw (Transaction req) x2 = (Ok tx, x3) ->
  TxAltCurrency tx = BAT ->
  toQ (BAT_ToProbi (New 20 1)) <= toQ (TxProbi tx) ->
  toQ (SpendableProbi bal) <= toQ (TxProbi tx) ->
  Destination tx = SettlementDestination gl ->
  SubmitTransaction uw (Transaction req) x3 = (submitted, x4) ->
  match submitted with
  | Ok _ =>
      Verify gl req w
      = (Err UnexpectedSuccess, mkWorld x4 (claims w) (faults w))
  | Err err =>
      if IsInvalidSignature err
      then Verify gl req w
           = (Err WrongPublicKey, mkWorld x4 (claims w) (faults w))
      else if IsInsufficientBalance err
      then Verify gl req w
           = match selectGrants (Sub (TxProbi tx) (SpendableProbi bal)) gs
             with
             | Err e => (Err e, mkWorld x4 (claims w) (faults w))
             | Ok (sorted, total) =>
                 match claimGrants (ProviderId (ReqWalletInfo req)) sorted
                         (mkWorld x4 (claims w) (faults w)) with
                 | (Ok _, w') =>
                     (Ok (mkTransactionInfo BAT total
                            (ProviderId (ReqWalletInfo req))), w')
                 | (Err e, w') => (Err e, w')
                 end
             end
      else Verify gl req w
           = (Err (External err), mkWorld x4 (claims w) (faults w))
  end.
Proof.
  intros Hdec Hwallet Hbal Htx Hbat Hmin Hshort Hdest Hsubmit.
  apply LessThan_false in Hmin. apply LessThan_false in Hshort.
  run_to_checks Hdec Hwallet Hbal Htx.
  rewrite (bool_decide_eq_true_2 _ Hbat), Hmin, Hshort,
    (bool_decide_eq_true_2 _ Hdest).
  cbn [negb ext claims faults]. rewrite Hsubmit.
  destruct submitted as [ok|err]; [reflexivity|].
  destruct (IsInvalidSignature err); [reflexivity|].
  destruct (IsInsufficientBalance err); cbn [negb]; [|reflexivity].
  destruct (selectGrants (Sub (TxProbi tx) (SpendableProbi bal)) gs)
    as [[sorted total]|e']; reflexivity.
Qed.

End SpeculativeSubmission.

(** A submission that goes through. *)
Lemma Verify_speculative_submission_witness :
  Verify (H := scenarioExternalsSubmitting
                 (Ok (mkTransactionInfo BAT (New 250 18) "settlement"))
                 (New 0 0) (New 250 18) "settlement")
    (scenarioGlobals None) (scenarioRequest ["grant-250"]) freshWorld
  = (Err UnexpectedSuccess, mkWorld 4%nat ∅ []).
Proof.
  apply (Verify_speculative_submission
           (H := scenarioExternalsSubmitting
                   (Ok (mkTransactionInfo BAT (New 250 18) "settlement"))
                   (New 0 0) (New 250 18) "settlement")
           (scenarioGlobals None) (scenarioRequest ["grant-250"]) freshWorld
           [mkGrant BAT "g-250" (New 250 18) "promo-1"]
           (mkWallet (mkWalletInfo "uphold" "wallet-1" BAT) [] [])
           (mkBalance (New 0 0))
           (mkTransactionInfo BAT (New 250 18) "settlement")
           1%nat 2%nat 3%nat 4%nat
           (Ok (mkTransactionInfo BAT (New 250 18) "settlement")));
    vm_compute; try reflexivity; discriminate.
Defined.

(** ** More on the selection *)

Section SelectionBounds.
Context `{SortImpl}.
Local Open Scope Q_scope.

Lemma sumProbiQ_nonneg (l : list Grant) :
  Forall (fun g => 0 <= probiQ g) l -> 0 <= sumProbiQ l.
Proof.
  induction 1 as [|g l Hg _ IH]; simpl; [apply Qle_refl|]. lra.
Qed.

(** A loop that ran to its end reached every grant with the running sum
    below [needed]. *)
Lemma sumGrants_Ok_prefix (needed : Decimal) (l : list Grant)
    (s total : Decimal) (pre post : list Grant) (g : Grant) :
  sumGrants needed l s = Ok total ->
  l = pre ++ g :: post ->
  toQ s + sumProbiQ pre < toQ needed.
Proof.
  intros Hrun Hsplit.
  destruct (Qlt_le_dec (toQ s + sumProbiQ pre) (toQ needed)) as [Hlt|Hle];
    [exact Hlt|exfalso].
  apply sumGrants_Ok_inv in Hrun as Hinv. destruct Hinv as [Hbat _].
  assert (Hex : sumGrants needed l s = Err ExcessGrants).
  { apply sumGrants_Excess_iff. exists pre, g, post.
    split; [exact Hsplit|]. split; [|exact Hle].
    rewrite Hsplit in Hbat. apply Forall_app in Hbat as [Hpre _].
    exact Hpre. }
  congruence.
Qed.

(** X11.  The selection does not ask that the grants cover the shortfall:
    BAT grants of non-negative probi whose sum stays below [needed] are
    all accepted, and the total is their sum. *)
Theorem selectGrants_accepts_shortfall (needed : Decimal)
    (grants : list Grant) :
  Forall inBAT grants ->
  Forall (fun g => 0 <= probiQ g) grants ->
  sumProbiQ grants < toQ needed ->
  exists total,
    selectGrants needed grants = Ok (sortGrants grants, total) /\
    toQ total == sumProbiQ grants /\ toQ total < toQ needed.
Proof.
  intros Hbat Hpos Hlt.
  pose proof (sortGrants_perm grants) as Hperm.
  destruct (sumGrants_Ok needed (sortGrants grants) (New 0 1))
    as (total & Hrun & Hq).
  - intros pre g post Hsplit. rewrite toQ_zero.
    assert (Hsum : sumProbiQ (sortGrants grants) == sumProbiQ grants)
      by (apply sumProbiQ_perm, Hperm).
    assert (Hrest : 0 <= sumProbiQ (g :: post)).
    { apply sumProbiQ_nonneg.
      assert (Hall : Forall (fun g => 0 <= probiQ g) (sortGrants grants))
        by (eapply Permutation_Forall; [symmetry; exact Hperm|exact Hpos]).
      rewrite Hsplit in Hall. apply Forall_app in Hall as [_ Hall].
      exact Hall. }
    rewrite Hsplit, sumProbiQ_app in Hsum. lra.
  - eapply Permutation_Forall; [symmetry; exact Hperm|exact Hbat].
  - exists total. unfold selectGrants. rewrite Hrun.
    assert (Hsum : sumProbiQ (sortGrants grants) == sumProbiQ grants)
      by (apply sumProbiQ_perm, Hperm).
    rewrite toQ_zero in Hq.
    split; [reflexivity|]. split; lra.
Qed.

(** X12.  When the selection succeeds, the total stays below [needed] plus
    the probi of the last grant in sorted order, and no grant of the
    request has less probi than that one: the overshoot is smaller than
    the smallest grant. *)
Theorem selectGrants_overshoot_bound (needed : Decimal)
    (grants sorted pre : list Grant) (last : Grant) (total : Decimal) :
  selectGrants needed grants = Ok (sorted, total) ->
  sorted = pre ++ [last] ->
  toQ total < toQ needed + probiQ last /\
  forall h, h ∈ grants -> probiQ last <= probiQ h.
Proof.
  unfold selectGrants.
  destruct (sumGrants needed (sortGrants grants) (New 0 1))
    as [t|e] eqn:Hrun; [|discriminate].
  intros [= <- <-] Hsplit. split.
  - pose proof (sumGrants_Ok_prefix _ _ _ _ pre [] last Hrun Hsplit) as Hpre.
    apply sumGrants_Ok_inv in Hrun as [_ Hq].
    rewrite Hsplit, sumProbiQ_app in Hq. simpl in Hq.
    rewrite toQ_zero in Hq, Hpre. lra.
  - intros h Hh.
    pose proof (sortGrants_descending grants) as Hsorted.
    rewrite <- (sortGrants_perm grants), Hsplit in Hh.
    rewrite Hsplit in Hsorted.
    apply elem_of_app in Hh as [Hh|Hh].
    + apply (StronglySorted_app_1_elem_of _ _ _ _ _ Hsorted Hh). left.
    + apply list_elem_of_singleton in Hh. subst h. apply Qle_refl.
Qed.

End SelectionBounds.

(** A grant of 25 against a shortfall of 250. *)
Lemma selectGrants_accepts_shortfall_witness :
  exists total,
    selectGrants (New 250 0) [mkGrant BAT "g-25" (New 25 0) "promo-1"]
    = Ok (sortGrants [mkGrant BAT "g-25" (New 25 0) "promo-1"], total) /\
    (toQ total == 25)%Q.
Proof.
  destruct (selectGrants_accepts_shortfall (New 250 0)
              [mkGrant BAT "g-25" (New 25 0) "promo-1"])
    as (total & Hsel & Hq & _).
  - repeat constructor.
  - repeat constructor. vm_compute. discriminate.
  - vm_compute. reflexivity.
  - exists total. split; [exact Hsel|]. rewrite Hq. vm_compute. reflexivity.
Defined.

(** Grants of 15 and 15 against a shortfall of 25: the total of 30 is below
    25 + 15. *)
Lemma selectGrants_overshoot_bound_witness :
  (toQ (Add (Add (New 0 1) (New 15 0)) (New 15 0)) < toQ (New 25 0) + 15)%Q.
Proof.
  apply (selectGrants_overshoot_bound (New 25 0)
           [mkGrant BAT "g1" (New 15 0) "p1"; mkGrant BAT "g2" (New 15 0) "p2"]
           [mkGrant BAT "g1" (New 15 0) "p1"; mkGrant BAT "g2" (New 15 0) "p2"]
           [mkGrant BAT "g1" (New 15 0) "p1"]
           (mkGrant BAT "g2" (New 15 0) "p2")
           (Add (Add (New 0 1) (New 15 0)) (New 15 0)));
    vm_compute; reflexivity.
Defined.

(** ** [ByProbi] as a [sort.Interface] *)

Section ByProbiInterface.
Local Open Scope Q_scope.

Lemma ByProbi_Less_swo : StrictWeakOrder ByProbi_Less.
Proof.
  unfold ByProbi_Less. split.
  - intros x. apply LessThan_false, Qle_refl.
  - intros x y z. rewrite !LessThan_spec.
    intros H1 H2. eapply Qlt_trans; eassumption.
  - intros x y z. rewrite !LessThan_false.
    intros H1 H2. eapply Qle_trans; eassumption.
Qed.

(** X13.  [ByProbi.Less] orders grants by the number their probi stands
    for, whatever the exponents the two decimals are written with; it is a
    strict weak order, and so is its reverse, which is what [sort.Sort]
    asks of a [Less]. *)
Theorem ByProbi_Less_orders_by_probi :
  (forall x y, ByProbi_Less x y = true <-> probiQ x < probiQ y) /\
  (forall x y, ByProbi_Less x y = false <-> probiQ y <= probiQ x) /\
  StrictWeakOrder ByProbi_Less /\
  StrictWeakOrder (sort_Reverse ByProbi_Less).
Proof.
  split; [intros x y; apply LessThan_spec|].
  split; [intros x y; apply LessThan_false|].
  split; [apply ByProbi_Less_swo|apply Reverse_ByProbi_swo].
Qed.

End ByProbiInterface.

Section ByProbiSwap.

Lemma ByProbi_Swap_Some (a : list Grant) (i j : nat) (x y : Grant) :
  a !! i = Some x -> a !! j = Some y ->
  ByProbi_Swap a i j = Some (<[j := x]> (<[i := y]> a)).
Proof. intros Hi Hj. unfold ByProbi_Swap. rewrite Hi, Hj. reflexivity. Qed.

(** X14.  [ByProbi.Swap] with both indices in range exchanges the two
    elements and nothing else: the slice keeps its length and its grants,
    every other position is as it was, and swapping again restores the
    slice.  With an index out of range there is no result (the call
    panics). *)
Theorem ByProbi_Swap_exchanges (a : list Grant) (i j : nat) :
  (ByProbi_Swap a i j = None <->
   ~ (i < ByProbi_Len a /\ j < ByProbi_Len a)) /\
  (i < ByProbi_Len a -> j < ByProbi_Len a ->
   exists a',
     ByProbi_Swap a i j = Some a' /\
     Permutation a' a /\
     ByProbi_Len a' = ByProbi_Len a /\
     a' !! i = a !! j /\ a' !! j = a !! i /\
     (forall k, k <> i -> k <> j -> a' !! k = a !! k) /\
     ByProbi_Swap a' i j = Some a).
Proof.
  unfold ByProbi_Len. split.
  - unfold ByProbi_Swap.
    destruct (a !! i) as [x|] eqn:Hi; [destruct (a !! j) as [y|] eqn:Hj|].
    + apply lookup_lt_Some in Hi, Hj. split; [discriminate|].
      intros Hn. exfalso. apply Hn. split; assumption.
    + apply lookup_ge_None in Hj. split; [intros _|reflexivity]. lia.
    + apply lookup_ge_None in Hi. split; [intros _|reflexivity]. lia.
  - intros Hi Hj.
    destruct (lookup_lt_is_Some_2 a i Hi) as [x Hx].
    destruct (lookup_lt_is_Some_2 a j Hj) as [y Hy].
    assert (Hlen : length (<[i := y]> a) = length a) by apply length_insert.
    assert (Hj' : <[j := x]> (<[i := y]> a) !! j = Some x)
      by (apply list_lookup_insert_eq; lia).
    assert (Hi' : <[j := x]> (<[i := y]> a) !! i = Some y).
    { destruct (decide (j = i)) as [->|Hne].
      - rewrite Hj'. congruence.
      - rewrite list_lookup_insert_ne by exact Hne.
        apply list_lookup_insert_eq. lia. }
    exists (<[j := x]> (<[i := y]> a)).
    split; [apply ByProbi_Swap_Some; assumption|].
    split; [apply Permutation_insert_swap; assumption|].
    split; [rewrite !length_insert; reflexivity|].
    split; [congruence|]. split; [congruence|]. split.
    + intros k Hki Hkj. rewrite !list_lookup_insert_ne by congruence.
      reflexivity.
    + rewrite (ByProbi_Swap_Some _ _ _ _ _ Hi' Hj'). f_equal.
      apply list_eq. intros k.
      destruct (decide (k = j)) as [->|Hkj].
      * rewrite list_lookup_insert_eq by (rewrite !length_insert; lia).
        symmetry. exact Hy.
      * rewrite list_lookup_insert_ne by congruence.
        destruct (decide (k = i)) as [->|Hki].
        -- rewrite list_lookup_insert_eq by (rewrite !length_insert; lia).
           symmetry. exact Hx.
        -- rewrite !list_lookup_insert_ne by congruence. reflexivity.
Qed.

End ByProbiSwap.

(** Positions 0 and 2 of three grants. *)
Lemma ByProbi_Swap_exchanges_witness :
  exists a',
    ByProbi_Swap
      [mkGrant BAT "g1" (New 5 0) "p1"; mkGrant BAT "g2" (New 7 0) "p2";
       mkGrant BAT "g3" (New 9 0) "p3"] 0 2 = Some a' /\
    a' !! 0%nat = Some (mkGrant BAT "g3" (New 9 0) "p3") /\
    a' !! 2%nat = Some (mkGrant BAT "g1" (New 5 0) "p1").
Proof.
  destruct (ByProbi_Swap_exchanges
              [mkGrant BAT "g1" (New 5 0) "p1";
               mkGrant BAT "g2" (New 7 0) "p2";
               mkGrant BAT "g3" (New 9 0) "p3"] 0 2) as [_ Hswap].
  destruct Hswap as (a' & Hs & _ & _ & H0 & H2 & _); [simpl; lia..|].
  exists a'. split; [exact Hs|]. split; [exact H0|exact H2].
Defined.

(** ** The names of the sets of the claim store *)

(** X15.  The names under which [Verify] keeps its claims do not collide:
    two grants share the set of grants, or the set of wallets, exactly
    when they are of the same promotion, and no set of grants is a set of
    wallets, whatever text the promotion ids are. *)
Theorem claim_set_names_separate (g h : Grant) :
  (grantsKey g = grantsKey h <-> PromotionId g = PromotionId h) /\
  (walletsKey g = walletsKey h <-> PromotionId g = PromotionId h) /\
  grantsKey g <> walletsKey h.
Proof.
  split; [|split].
  - split; [apply grantsKey_inj|].
    intros Hp. unfold grantsKey. rewrite Hp. reflexivity.
  - split; [apply walletsKey_inj|].
    intros Hp. unfold walletsKey. rewrite Hp. reflexivity.
  - apply grantsKey_ne_walletsKey.
Qed.

(** ** The start of the service *)

(** X16.  [InitGrantService] refuses to start, with
    [RefreshBalanceDisabled], exactly in production with the refresh of
    balances switched off, and then without asking the provider for the
    custodial wallet; it returns no error exactly when that is not the case
    and the provider yields the wallet.  In every case, failure included,
    the verification key is replaced by the decoded signator key and the
    configuration is left as it was. *)
Theorem InitGrantService_outcomes `{Externals E} (ENV : string)
    (gl : Globals) :
  (fst (InitGrantService ENV gl) = Some RefreshBalanceDisabled <->
   ENV = "production" /\ refreshBalance gl = false) /\
  (fst (InitGrantService ENV gl) = None <->
   ~ (ENV = "production" /\ refreshBalance gl = false) /\
   isOk (uphold_FromWalletInfo
           (mkWalletInfo "uphold" (GrantWalletCardId gl) BAT)) = true) /\
  grantPublicKey (snd (InitGrantService ENV gl))
  = hex_DecodeString (GrantSignatorPublicKeyHex gl) /\
  SettlementDestination (snd (InitGrantService ENV gl))
  = SettlementDestination gl /\
  refreshBalance (snd (InitGrantService ENV gl)) = refreshBalance gl.
Proof.
  unfold InitGrantService, initLocalWallet.
  cbn [GrantWalletCardId GrantWalletPublicKeyHex GrantWalletPrivateKeyHex
       refreshBalance].
  case_bool_decide as Henv; destruct (refreshBalance gl) eqn:Hrefresh;
    cbn [andb negb];
    try (destruct (uphold_FromWalletInfo _) as [local|err]);
    cbn [fst snd isOk grantPublicKey SettlementDestination refreshBalance];
    repeat split; try reflexivity; try discriminate; try tauto;
    try (intros [? ?]; congruence); try (intros [? ?]; discriminate).
Qed.

(** ** What the already-redeemed failures tell *)

Section AlreadyRedeemedFailures.
Context {E : Type} `{Externals E} `{SortImpl}.

(** A failed [Verify] failed before the claim store was called, with a
    failure handed on from a collaborator or one raised by the checks, or
    it failed in the loop over the selected grants. *)
Lemma Verify_Err_inv (gl : Globals) (req : RedeemGrantsRequest)
    (w w' : World E) (e : Error) :
  Verify gl req w = (Err e, w') ->
  (exists x, e = External x) \/ raisedByChecks e = true \/
  exists gs wmid,
    decodeGrants gl (Grants req) [] = Ok gs /\
    claims wmid = claims w /\
    claimGrants (ProviderId (ReqWalletInfo req)) (sortGrants gs) wmid
    = (Err e, w').
Proof.
  unfold Verify, bind, liftR, call, callRaw, fail, ret.
  destruct (decodeGrants gl (Grants req) []) as [gs|e0] eqn:Hdec.
  2:{ intros [= <- <-].
      apply decodeGrants_Err_iff in Hdec as (pre & t & post & _ & _ & Ht).
      unfold FromCompactJWS in Ht.
      destruct (jose_ParseSigned t) as [jws|e1]; [|injection Ht as <-; eauto].
      destruct (forallb _ _); [|injection Ht as <-; auto].
      destruct (jws_Verify jws (grantPublicKey gl)) as [b|e2];
        [|injection Ht as <-; eauto].
      destruct (json_Unmarshal b) as [g0|e3]; [discriminate Ht|].
      injection Ht as <-. eauto. }
  destruct (provider_GetWallet (ReqWalletInfo req) (ext w)) as [[uw|e1] x1];
    cbn [surface ext claims faults]; [|intros [= <- <-]; eauto].
  destruct (GetBalance uw (refreshBalance gl) x1) as [[bal|e2] x2];
    cbn [surface ext claims faults]; [|intros [= <- <-]; eauto].
  destruct (VerifyTransaction uw (Transaction req) x2) as [[tx|e3] x3];
    cbn [surface ext claims faults]; [|intros [= <- <-]; eauto].
  case_bool_decide; cbn [negb]; [|intros [= <- <-]; auto].
  destruct (LessThan (TxProbi tx) (BAT_ToProbi (New 20 1)));
    [intros [= <- <-]; auto|].
  destruct (LessThan (TxProbi tx) (SpendableProbi bal));
    [intros [= <- <-]; auto|].
  case_bool_decide; cbn [negb]; [|intros [= <- <-]; auto].
  cbn [ext claims faults].
  destruct (SubmitTransaction uw (Transaction req) x3) as [[ok|err] x4];
    [intros [= <- <-]; auto|].
  destruct (IsInvalidSignature err); [intros [= <- <-]; auto|].
  destruct (IsInsufficientBalance err); cbn [negb];
    [|intros [= <- <-]; eauto].
  destruct (selectGrants (Sub (TxProbi tx) (SpendableProbi bal)) gs)
    as [[sorted total]|e5] eqn:Hsel.
  2:{ intros [= <- <-].
      apply selectGrants_errors in Hsel as [-> | ->]; auto. }
  apply selectGrants_Ok_sorted in Hsel. subst sorted.
  destruct (claimGrants (ProviderId (ReqWalletInfo req)) (sortGrants gs)
              (mkWorld x4 (claims w) (faults w))) as [[u|e6] w2] eqn:Hclaim;
    [discriminate|].
  intros [= <- <-]. right; right.
  exists gs, (mkWorld x4 (claims w) (faults w)). done.
Qed.

(** X17.  The already-redeemed failures of [Verify] name what they are
    about.  [AlreadyRedeemed] carries the id of a grant of the request,
    and that grant is in the set of grants of its promotion.
    [AlreadyRedeemedByWallet] carries the account id of the wallet of the
    request, which is in the set of wallets of the promotion of a grant of
    the request; that grant's own claim, made just before, is in the store
    when the call returns. *)
Theorem Verify_already_redeemed_names (gl : Globals)
    (req : RedeemGrantsRequest) (w w' : World E) (e : Error) :
  Verify gl req w = (Err e, w') ->
  (forall id, e = AlreadyRedeemed id ->
     exists gs h,
       decodeGrants gl (Grants req) [] = Ok gs /\ h ∈ gs /\
       id = GrantId h /\
       GrantId h ∈ setOf (claims w') (grantsKey h)) /\
  (forall p, e = AlreadyRedeemedByWallet p ->
     p = ProviderId (ReqWalletInfo req) /\
     exists gs h,
       decodeGrants gl (Grants req) [] = Ok gs /\ h ∈ gs /\
       p ∈ setOf (claims w') (walletsKey h) /\
       GrantId h ∈ setOf (claims w') (grantsKey h)).
Proof.
  intros Hrun.
  apply Verify_Err_inv in Hrun
    as [[x ->]|[He|(gs & wmid & Hdec & Hc & Hclaim)]].
  { split; intros ? [=]. }
  { split; intros ? ->; discriminate He. }
  apply claimGrants_Err_split in Hclaim
    as (pre & g & post & w1 & Hsplit & _ & _ & Hcases).
  assert (Hg : g ∈ gs).
  { apply elem_of_sortGrants. rewrite Hsplit.
    apply elem_of_app. right. left. }
  destruct Hcases as [(-> & Hin & Hc')|[(-> & Hin & Hc')|[x ->]]].
  - split; [|intros ? [=]].
    intros id [= <-]. exists gs, g. rewrite Hc'. done.
  - split; [intros ? [=]|].
    intros p [= <-]. split; [reflexivity|].
    exists gs, g. rewrite Hc'.
    split; [exact Hdec|]. split; [exact Hg|]. split.
    + apply claimsIncluded_addTo, Hin.
    + apply elem_of_addTo. left. done.
  - split; intros ? [=].
Qed.

End AlreadyRedeemedFailures.

(** Two grants of one promotion: the failure names wallet-1, and the second
    grant is spent. *)
Lemma Verify_already_redeemed_names_witness :
  exists gs h,
    decodeGrants (H := scenarioExternals false (New 0 0) (New 300 18)
                         "settlement")
      (scenarioGlobals None) ["grant-150a"; "grant-150b"] [] = Ok gs /\
    h ∈ gs /\
    GrantId h ∈ setOf
      (claims (snd (Verify (H := scenarioExternals false (New 0 0)
                                   (New 300 18) "settlement")
                      (scenarioGlobals None)
                      (scenarioRequest ["grant-150a"; "grant-150b"])
                      freshWorld)))
      (grantsKey h).
Proof.
  destruct (Verify_already_redeemed_names
              (H := scenarioExternals false (New 0 0) (New 300 18)
                      "settlement")
              (scenarioGlobals None)
              (scenarioRequest ["grant-150a"; "grant-150b"]) freshWorld
              (snd (Verify (H := scenarioExternals false (New 0 0)
                                   (New 300 18) "settlement")
                      (scenarioGlobals None)
                      (scenarioRequest ["grant-150a"; "grant-150b"])
                      freshWorld))
              (AlreadyRedeemedByWallet "wallet-1")) as [_ Hwallet].
  - vm_compute. reflexivity.
  - destruct (Hwallet "wallet-1" eq_refl)
      as (_ & gs & h & Hdec & Hh & _ & Hg).
    exists gs, h. split; [exact Hdec|]. split; [exact Hh|exact Hg].
Defined.

(** * The claims as [Verify] leaves them *)

Section VerifyClaims.
Context {E : Type} `{Externals E} `{SortImpl}.

Local Abbreviation walletOf req := (ProviderId (ReqWalletInfo req)).

Lemma claimAll_snoc p (l : list Grant) g store :
  claimAll p (l ++ [g]) store = claimOne p g (claimAll p l store).
Proof. unfold claimAll. rewrite fold_left_app. reflexivity. Qed.

(** What [claimGrants_fresh] says, with the store the loop leaves. *)
Lemma claimGrants_fresh_store p (l : list Grant) :
  forall w : World E,
    quiet (4 * length l) w ->
    NoDup (PromotionId <$> l) ->
    (forall h, h ∈ l -> GrantId h ∉ setOf (claims w) (grantsKey h)) ->
    (forall h, h ∈ l -> p ∉ setOf (claims w) (walletsKey h)) ->
    exists w1,
      claimGrants p l w = (Ok tt, w1) /\
      claims w1 = claimAll p l (claims w) /\
      faults w1 = drop (4 * length l) (faults w).
Proof.
  induction l as [|g rest IH]; intros w Hq Hnd Hg Hp.
  - exists w. split; [reflexivity|]. split; [reflexivity|].
    rewrite drop_0. reflexivity.
  - rewrite fmap_cons in Hnd. apply NoDup_cons in Hnd as [Hg_promo Hnd].
    destruct (claimGrants_both_new p g rest w) as (w1 & Hrun & _ & Hc & Hf).
    + eapply quiet_le; [|exact Hq]. simpl. lia.
    + apply Hg. left.
    + apply Hp. left.
    + destruct (IH w1) as (w2 & Hrest & Hc2 & Hf2).
      * apply (quiet_drop 4 _ w); [|exact Hf].
        replace (4 + 4 * length rest) with (4 * length (g :: rest))
          by (simpl; lia). exact Hq.
      * exact Hnd.
      * intros h Hh. rewrite Hc. unfold claimOne.
        rewrite !elem_of_addTo.
        intros [[Hk _]|[[Hk _]|Hin]].
        -- exact (grantsKey_ne_walletsKey _ _ Hk).
        -- apply grantsKey_inj in Hk. apply Hg_promo.
           rewrite <- Hk. apply list_elem_of_fmap_2, Hh.
        -- apply (Hg h); [right; exact Hh|exact Hin].
      * intros h Hh. rewrite Hc. unfold claimOne.
        rewrite !elem_of_addTo.
        intros [[Hk _]|[[Hk _]|Hin]].
        -- apply walletsKey_inj in Hk. apply Hg_promo.
           rewrite <- Hk. apply list_elem_of_fmap_2, Hh.
        -- exact (grantsKey_ne_walletsKey _ _ (eq_sym Hk)).
        -- apply (Hp h); [right; exact Hh|exact Hin].
      * exists w2. rewrite Hrun. split; [exact Hrest|]. split.
        -- rewrite Hc2, Hc. reflexivity.
        -- rewrite Hf2, Hf, drop_drop. f_equal. simpl. lia.
Qed.

(** The course of [Verify] from the selection on, for a request that gets
    as far as the grants. *)
Lemma Verify_from_grants (gl : Globals) (req : RedeemGrantsRequest)
    (w : World E) (gs : list Grant) (needed : Decimal) (x : E) :
  reachesGrants gl req w gs needed x ->
  Verify gl req w
  = match selectGrants needed gs with
    | Err e => (Err e, mkWorld x (claims w) (faults w))
    | Ok (sorted, total) =>
        match claimGrants (walletOf req) sorted
                (mkWorld x (claims w) (faults w)) with
        | (Ok _, w') => (Ok (mkTransactionInfo BAT total (walletOf req)), w')
        | (Err e, w') => (Err e, w')
        end
    end.
Proof.
  intros (uw & bal & tx & x1 & x2 & x3 & err & Hdec & Hwallet & Hbal & Htx
          & Hbat & Hmin & Hshort & Hdest & Hsubmit & Hsig & Hfunds & ->).
  run_to_checks Hdec Hwallet Hbal Htx.
  rewrite (bool_decide_eq_true_2 _ Hbat), Hmin, Hshort,
    (bool_decide_eq_true_2 _ Hdest).
  cbn [negb ext claims faults]. rewrite Hsubmit, Hsig, Hfunds. cbn [negb].
  destruct (selectGrants (Sub (TxProbi tx) (SpendableProbi bal)) gs)
    as [[sorted total]|e']; reflexivity.
Qed.

(** The loop of such a request, having claimed the grants [pre], stops at
    the grant after them: so does [Verify], in the world the loop left. *)
Lemma Verify_stops_at (gl : Globals) (req : RedeemGrantsRequest)
    (w w1 w2 : World E) (gs pre post : list Grant) (g : Grant)
    (needed total : Decimal) (x : E) (e : Error) :
  reachesGrants gl req w gs needed x ->
  selectGrants needed gs = Ok (pre ++ g :: post, total) ->
  claimGrants (walletOf req) pre (mkWorld x (claims w) (faults w))
    = (Ok tt, w1) ->
  claimGrants (walletOf req) (g :: post) w1 = (Err e, w2) ->
  Verify gl req w = (Err e, w2).
Proof.
  intros Hreach Hsel Hpre Hg.
  rewrite (Verify_from_grants _ _ _ _ _ _ Hreach), Hsel.
  rewrite claimGrants_app, Hpre, Hg. reflexivity.
Qed.

(** C3.  For every grant, in the order of the selection, [Verify] makes two
    add-if-absent calls under the grant's promotion: the grant id into the
    set of grants, then the wallet's account id into the set of wallets.
    Take a request that gets as far as the grants, with the grants [pre]
    before [g] in the selection unclaimed, of distinct promotions, and the
    wallet new to each of them, so that they are all claimed when [g] is
    reached.  If the grant id of [g] is present then, [Verify] fails with
    [AlreadyRedeemed] and the store it leaves is the one with all of [pre]
    claimed.  If the wallet is present, it fails with
    [AlreadyRedeemedByWallet], and the store holds the claims of [pre] and
    the grant id of [g] added just before.  If neither is present and [g]
    is the last grant, it succeeds with [pre] and [g] claimed.  No
    failure undoes a claim made earlier in the call, and no claim present
    before the call is ever taken out. *)
Theorem Verify_claims_without_compensation (gl : Globals)
    (req : RedeemGrantsRequest) (w : World E) (gs pre post : list Grant)
    (g : Grant) (needed total : Decimal) (x : E) :
  reachesGrants gl req w gs needed x ->
  selectGrants needed gs = Ok (pre ++ g :: post, total) ->
  NoDup (PromotionId <$> pre) ->
  (forall h, h ∈ pre -> GrantId h ∉ setOf (claims w) (grantsKey h)) ->
  (forall h, h ∈ pre -> walletOf req ∉ setOf (claims w) (walletsKey h)) ->
  (quiet (4 * length pre + 3) w ->
   GrantId g ∈ setOf (claimAll (walletOf req) pre (claims w)) (grantsKey g) ->
   exists w2,
     Verify gl req w = (Err (AlreadyRedeemed (GrantId g)), w2) /\
     claims w2 = claimAll (walletOf req) pre (claims w) /\
     claimedIn (walletOf req) pre (claims w2)) /\
  (quiet (4 * length pre + 4) w ->
   (GrantId g
      ∉ setOf (claimAll (walletOf req) pre (claims w)) (grantsKey g)) ->
   walletOf req
     ∈ setOf (claimAll (walletOf req) pre (claims w)) (walletsKey g) ->
   exists w2,
     Verify gl req w = (Err (AlreadyRedeemedByWallet (walletOf req)), w2) /\
     claims w2 = addTo (claimAll (walletOf req) pre (claims w))
                       (grantsKey g) (GrantId g) /\
     claimedIn (walletOf req) pre (claims w2) /\
     GrantId g ∈ setOf (claims w2) (grantsKey g)) /\
  (quiet (4 * length pre + 4) w ->
   (GrantId g
      ∉ setOf (claimAll (walletOf req) pre (claims w)) (grantsKey g)) ->
   (walletOf req
      ∉ setOf (claimAll (walletOf req) pre (claims w)) (walletsKey g)) ->
   post = [] ->
   exists w2,
     Verify gl req w
       = (Ok (mkTransactionInfo BAT total (walletOf req)), w2) /\
     claims w2 = claimAll (walletOf req) (pre ++ [g]) (claims w) /\
     claimedIn (walletOf req) (pre ++ [g]) (claims w2)) /\
  (forall r w2,
     Verify gl req w = (r, w2) -> claimsIncluded (claims w) (claims w2)).
Proof.
  intros Hreach Hsel Hnd Hfresh Hwallet.
  set (p := walletOf req) in *.
  set (wmid := mkWorld x (claims w) (faults w)).
  assert (Hpre : forall n, quiet (4 * length pre + n) w ->
            exists w1, claimGrants p pre wmid = (Ok tt, w1) /\
              claims w1 = claimAll p pre (claims w) /\ quiet n w1).
  { intros n Hq.
    destruct (claimGrants_fresh_store p pre wmid) as (w1 & Hrun & Hc & Hf);
      [|exact Hnd|exact Hfresh|exact Hwallet|].
    - apply (quiet_le _ (4 * length pre + n)); [lia|exact Hq].
    - exists w1. split; [exact Hrun|]. split; [exact Hc|].
      apply (quiet_drop (4 * length pre) n wmid); [exact Hq|exact Hf]. }
  split; [|split; [|split]].
  - intros Hq Hg. destruct (Hpre 3 Hq) as (w1 & Hrun & Hc & Hq1).
    rewrite <- Hc in Hg.
    destruct (claimGrants_grant_present p g post w1 Hq1 Hg) as (w2 & Hstop & Hc2).
    exists w2. split; [exact (Verify_stops_at _ _ _ _ _ _ _ _ _ _ _ _ _ Hreach Hsel Hrun Hstop)|].
    split; [rewrite Hc2; exact Hc|].
    rewrite Hc2. exact (claimGrants_Ok_committed _ _ _ _ _ Hrun).
  - intros Hq Hg Hp. destruct (Hpre 4 Hq) as (w1 & Hrun & Hc & Hq1).
    rewrite <- Hc in Hg, Hp.
    destruct (claimGrants_wallet_present p g post w1 Hq1 Hg Hp)
      as (w2 & Hstop & Hc2).
    exists w2. split; [exact (Verify_stops_at _ _ _ _ _ _ _ _ _ _ _ _ _ Hreach Hsel Hrun Hstop)|].
    split; [rewrite Hc2, Hc; reflexivity|].
    split.
    + intros h Hh. rewrite Hc2.
      destruct (claimGrants_Ok_committed _ _ _ _ _ Hrun h Hh) as [Hgh Hph].
      split; apply claimsIncluded_addTo; assumption.
    + rewrite Hc2. apply elem_of_addTo. left. done.
  - intros Hq Hg Hp ->. destruct (Hpre 4 Hq) as (w1 & Hrun & Hc & Hq1).
    rewrite <- Hc in Hg, Hp.
    destruct (claimGrants_both_new p g [] w1 Hq1 Hg Hp)
      as (w2 & Hlast & _ & Hc2 & _).
    cbn [claimGrants] in Hlast. unfold ret in Hlast.
    assert (Hall : claimGrants p (pre ++ [g]) wmid = (Ok tt, w2))
      by (rewrite claimGrants_app, Hrun; exact Hlast).
    exists w2. split.
    + rewrite (Verify_from_grants _ _ _ _ _ _ Hreach), Hsel.
      fold p. fold wmid. rewrite Hall. reflexivity.
    + split; [rewrite claimAll_snoc, Hc2, Hc; reflexivity|].
      exact (claimGrants_Ok_committed _ _ _ _ _ Hall).
  - intros r w2. apply Verify_grows.
Qed.

(** C9.  A request whose grants include two of one promotion cannot pass
    [Verify]: the wallet's account id goes into that promotion's set of
    wallets once per grant, and the second time it is there already.  When
    such a request gets as far as the grants with no transport failure,
    every grant unclaimed and distinct, and the wallet new to every
    promotion involved, [Verify] fails with [AlreadyRedeemedByWallet] at
    the first grant of the selection whose promotion occurred before, and
    the store it leaves holds the claims of the grants before that one and
    the grant's own claim. *)
Theorem Verify_same_promotion_wallet_failure :
  (forall gl req (w : World E) gs,
     decodeGrants gl (Grants req) [] = Ok gs ->
     ~ NoDup (PromotionId <$> gs) ->
     exists e, fst (Verify gl req w) = Err e) /\
  (forall gl req (w : World E) gs needed x total (pre post : list Grant)
          (g : Grant),
     reachesGrants gl req w gs needed x ->
     selectGrants needed gs = Ok (pre ++ g :: post, total) ->
     quiet (4 * S (length pre)) w ->
     NoDup (PromotionId <$> pre) ->
     PromotionId g ∈ PromotionId <$> pre ->
     (forall h, h ∈ pre ++ [g] ->
        GrantId h ∉ setOf (claims w) (grantsKey h)) ->
     (forall h, h ∈ pre ->
        PromotionId h = PromotionId g -> GrantId h <> GrantId g) ->
     (forall h, h ∈ pre -> walletOf req ∉ setOf (claims w) (walletsKey h)) ->
     exists w',
       Verify gl req w = (Err (AlreadyRedeemedByWallet (walletOf req)), w') /\
       claims w' = addTo (claimAll (walletOf req) pre (claims w))
                         (grantsKey g) (GrantId g) /\
       (forall h, h ∈ pre ++ [g] ->
          GrantId h ∈ setOf (claims w') (grantsKey h)) /\
       (forall h, h ∈ pre ->
          walletOf req ∈ setOf (claims w') (walletsKey h))).
Proof.
  split; [exact (proj1 Verify_same_promotion_fails)|].
  intros gl req w gs needed x total pre post g Hreach Hsel Hq Hnd Hpromo
    Hfresh Hdistinct Hwallet.
  set (p := walletOf req) in *.
  set (wmid := mkWorld x (claims w) (faults w)).
  destruct (claimGrants_fresh_store p pre wmid) as (w1 & Hpre & Hc1 & Hf1).
  { apply (quiet_le _ (4 * S (length pre))); [lia|exact Hq]. }
  { exact Hnd. }
  { intros h Hh. apply Hfresh, elem_of_app. left. exact Hh. }
  { exact Hwallet. }
  pose proof (claimGrants_Ok_committed _ _ _ _ _ Hpre) as Hcommitted.
  destruct (claimGrants_wallet_present p g post w1) as (w' & Hg & Hc).
  - apply (quiet_drop (4 * length pre) 4 wmid); [|exact Hf1].
    replace (4 * length pre + 4) with (4 * S (length pre)) by lia.
    exact Hq.
  - intros Hin.
    destruct (claimGrants_adds_only _ _ _ _ _ _ _ Hpre Hin)
      as [Hold|(h & Hh & [[Hk Hid]|[Hk _]])].
    + apply (Hfresh g); [|exact Hold].
      apply elem_of_app. right. left.
    + apply grantsKey_inj in Hk.
      apply (Hdistinct h Hh); [symmetry; exact Hk|symmetry; exact Hid].
    + exact (grantsKey_ne_walletsKey _ _ Hk).
  - apply list_elem_of_fmap in Hpromo as (h & Hk & Hh).
    destruct (Hcommitted h Hh) as [_ Hw].
    unfold walletsKey in *. rewrite Hk. exact Hw.
  - exists w'.
    split; [exact (Verify_stops_at _ _ _ _ _ _ _ _ _ _ _ _ _ Hreach Hsel Hpre Hg)|].
    split; [rewrite Hc, Hc1; reflexivity|].
    rewrite Hc. split.
    + intros h Hh. apply elem_of_addTo.
      apply elem_of_app in Hh as [Hh|Hh].
      * right. apply (Hcommitted h Hh).
      * apply list_elem_of_singleton in Hh. subst h. left. done.
    + intros h Hh. apply claimsIncluded_addTo.
      apply (Hcommitted h Hh).
Qed.

End VerifyClaims.

(** A transfer of 400 BAT from an empty wallet against a grant of 250 BAT
    and one of 150 BAT that someone else has claimed: [Verify] stops at the
    second grant, and both claims of the first are in the store it
    leaves. *)
Lemma Verify_claims_without_compensation_witness :
  exists w2 : World nat,
    Verify (H := scenarioExternals false (New 0 0) (New 400 18) "settlement")
      (scenarioGlobals None) (scenarioRequest ["grant-150a"; "grant-250"])
      (mkWorld 0%nat {["promotion:promo-2:grants" := {["g-150a"]}]} [])
    = (Err (AlreadyRedeemed "g-150a"), w2) /\
    "g-250" ∈ setOf (claims w2) "promotion:promo-1:grants" /\
    "wallet-1" ∈ setOf (claims w2) "promotion:promo-1:wallets".
Proof.
  destruct (Verify_claims_without_compensation (E := nat)
              (H := scenarioExternals false (New 0 0) (New 400 18)
                      "settlement")
              (scenarioGlobals None)
              (scenarioRequest ["grant-150a"; "grant-250"])
              (mkWorld 0%nat {["promotion:promo-2:grants" := {["g-150a"]}]}
                       [])
              [mkGrant BAT "g-150a" (New 150 18) "promo-2";
               mkGrant BAT "g-250" (New 250 18) "promo-1"]
              [mkGrant BAT "g-250" (New 250 18) "promo-1"] []
              (mkGrant BAT "g-150a" (New 150 18) "promo-2")
              (Sub (New 400 18) (New 0 0))
              (Add (Add (New 0 1) (New 250 18)) (New 150 18))
              4%nat)
    as (Hgrant & _).
  - exists (mkWallet (mkWalletInfo "uphold" "wallet-1" BAT) [] []),
      (mkBalance (New 0 0)),
      (mkTransactionInfo BAT (New 400 18) "settlement"),
      1%nat, 2%nat, 3%nat,
      (mkExtError InsufficientBalanceKind "insufficient balance").
    vm_compute. repeat split.
  - vm_compute. reflexivity.
  - repeat constructor. intros Hin. inversion Hin.
  - intros h Hh. apply list_elem_of_singleton in Hh. subst h.
    vm_compute. intros Hin. discriminate Hin.
  - intros h Hh. apply list_elem_of_singleton in Hh. subst h.
    vm_compute. intros Hin. discriminate Hin.
  - destruct Hgrant as (w2 & Hrun & _ & Hclaimed).
    + vm_compute. constructor.
    + vm_compute. reflexivity.
    + exists w2. split; [exact Hrun|].
      exact (Hclaimed (mkGrant BAT "g-250" (New 250 18) "promo-1")
               ltac:(left)).
Defined.

(** Two grants of 150 BAT of one promotion against a transfer of 300 BAT
    from an empty wallet. *)
Lemma Verify_same_promotion_wallet_failure_witness :
  (exists e,
     fst (Verify (H := scenarioExternals false (New 0 0) (New 300 18)
                         "settlement")
            (scenarioGlobals None)
            (scenarioRequest ["grant-150a"; "grant-150b"]) freshWorld)
     = Err e) /\
  (exists w' : World nat,
     Verify (H := scenarioExternals false (New 0 0) (New 300 18)
                    "settlement")
       (scenarioGlobals None)
       (scenarioRequest ["grant-150a"; "grant-150b"]) freshWorld
     = (Err (AlreadyRedeemedByWallet "wallet-1"), w') /\
     "g-150a" ∈ setOf (claims w') "promotion:promo-2:grants" /\
     "g-150b" ∈ setOf (claims w') "promotion:promo-2:grants" /\
     "wallet-1" ∈ setOf (claims w') "promotion:promo-2:wallets").
Proof.
  pose proof (Verify_same_promotion_wallet_failure (E := nat)
                (H := scenarioExternals false (New 0 0) (New 300 18)
                        "settlement")) as [Hfails Hwallet].
  split.
  - apply (Hfails _ _ _ [mkGrant BAT "g-150a" (New 150 18) "promo-2";
                         mkGrant BAT "g-150b" (New 150 18) "promo-2"]).
    + vm_compute. reflexivity.
    + intros Hnd. apply NoDup_cons in Hnd as [Hnin _].
      apply Hnin. left.
  - destruct (Hwallet (scenarioGlobals None)
                (scenarioRequest ["grant-150a"; "grant-150b"]) freshWorld
                [mkGrant BAT "g-150a" (New 150 18) "promo-2";
                 mkGrant BAT "g-150b" (New 150 18) "promo-2"]
                (Sub (New 300 18) (New 0 0)) 4%nat
                (Add (Add (New 0 1) (New 150 18)) (New 150 18))
                [mkGrant BAT "g-150a" (New 150 18) "promo-2"] []
                (mkGrant BAT "g-150b" (New 150 18) "promo-2"))
      as (w' & Hrun & _ & Hgrants & Hwallets).
    + exists (mkWallet (mkWalletInfo "uphold" "wallet-1" BAT) [] []),
        (mkBalance (New 0 0)),
        (mkTransactionInfo BAT (New 300 18) "settlement"),
        1%nat, 2%nat, 3%nat,
        (mkExtError InsufficientBalanceKind "insufficient balance").
      vm_compute. repeat split.
    + vm_compute. reflexivity.
    + constructor.
    + repeat constructor. intros Hin. inversion Hin.
    + left.
    + intros h Hh. vm_compute. intros Hin. discriminate Hin.
    + intros h Hh _.
      apply list_elem_of_singleton in Hh. subst h. discriminate.
    + intros h Hh. vm_compute. intros Hin. discriminate Hin.
    + exists w'. split; [exact Hrun|]. split; [|split].
      * apply (Hgrants (mkGrant BAT "g-150a" (New 150 18) "promo-2")).
        left.
      * apply (Hgrants (mkGrant BAT "g-150b" (New 150 18) "promo-2")).
        right. left.
      * apply (Hwallets (mkGrant BAT "g-150a" (New 150 18) "promo-2")).
        left.
Defined.
